(** * Burn-My-Windows: the TV effect and the Doom effect

    A shallow embedding of [src/TVEffect.js] and [src/Doom.js].

    - [GLSL] holds the built-in functions of the shading language that the
      fragment code calls ([clamp], [smoothstep], [mix]), with the
      definitions the GLSL specification gives for them.
    - [TVShader] is the fragment snippet assembled by
      [vfunc_build_pipeline] in [TVEffect.js], statement by statement.
    - [TVPool] is the module-level state of [TVEffect.js]: the
      [freeShaders] array, the shader objects and the static methods
      [getShader], [cleanUp] together with [ShaderClass.setUniforms] and
      [ShaderClass.free].
    - [Doom] is the [begin-animation] handler and [getActorScale] of
      [Doom.js].

    Numbers: GLSL [float] and JavaScript numbers are modelled as exact
    rationals ([Q]); equalities between computed values are stated with
    [==] ([Qeq]).  Rounding is not modelled. *)

From Stdlib Require Import QArith Qminmax Lqa Lia.
From stdpp Require Import gmap strings list.

(* ===================================================================== *)
(** ** GLSL built-ins *)
(* ===================================================================== *)

Module GLSL.
Local Open Scope Q_scope.

(** [max(x, y)]: returns [y] if [x < y], otherwise [x]. *)
Definition max (x y : Q) : Q := if Qlt_le_dec x y then y else x.

(** [min(x, y)]: returns [y] if [y < x], otherwise [x]. *)
Definition min (x y : Q) : Q := if Qlt_le_dec y x then y else x.

(** [clamp(x, minVal, maxVal)] is [min(max(x, minVal), maxVal)]. *)
Definition clamp (x minVal maxVal : Q) : Q := min (max x minVal) maxVal.

(** [smoothstep(edge0, edge1, x)]: Hermite interpolation,
    [t = clamp((x - edge0) / (edge1 - edge0), 0, 1); t * t * (3 - 2 * t)]. *)
Definition smoothstep (edge0 edge1 x : Q) : Q :=
  let t := clamp ((x - edge0) / (edge1 - edge0)) 0 1 in
  t * t * (3 - 2 * t).

(** [mix(x, y, a)] is [x * (1 - a) + y * a]. *)
Definition mix (x y a : Q) : Q := x * (1 - a) + y * a.

Record vec3 : Type := Vec3 { vx : Q; vy : Q; vz : Q }.

(** A colour: the [rgb] swizzle and the [a] component. *)
Record vec4 : Type := Vec4 { rgb : vec3; a : Q }.

(** Component-wise operations used by the fragment code. *)
Definition vec3_scale (v : vec3) (k : Q) : vec3 :=
  Vec3 (vx v * k) (vy v * k) (vz v * k).

Definition vec3_div (v : vec3) (k : Q) : vec3 :=
  Vec3 (vx v / k) (vy v / k) (vz v / k).

Definition vec3_mix (x y : vec3) (w : Q) : vec3 :=
  Vec3 (mix (vx x) (vx y) w) (mix (vy x) (vy y) w) (mix (vz x) (vz y) w).

(** Equality of colours up to [Qeq] on every component. *)
Definition vec3_eq (u v : vec3) : Prop :=
  vx u == vx v /\ vy u == vy v /\ vz u == vz v.

Definition vec4_eq (u v : vec4) : Prop :=
  vec3_eq (rgb u) (rgb v) /\ a u == a v.

End GLSL.

(* ===================================================================== *)
(** ** The fragment code of the TV effect *)
(* ===================================================================== *)

Module TVShader.
Import GLSL.
Local Open Scope Q_scope.

(** The constants of the [declarations] block. *)
Definition BLUR_WIDTH : Q := 0.01.
Definition TB_TIME    : Q := 0.7.
Definition LR_TIME    : Q := 0.4.
Definition LR_DELAY   : Q := 0.6.
Definition FF_TIME    : Q := 0.1.

(** [float progress = uForOpening ? 1.0-uProgress : uProgress;] *)
Definition progress (uForOpening : bool) (uProgress : Q) : Q :=
  if uForOpening then 1 - uProgress else uProgress.

(** The arguments of the three outer [smoothstep] calls: the clamped,
    not yet eased, progress of each phase. *)
Definition tbLocal (progress : Q) : Q := clamp (progress / TB_TIME) 0 1.
Definition lrLocal (progress : Q) : Q := clamp ((progress - LR_DELAY) / LR_TIME) 0 1.
Definition ffLocal (progress : Q) : Q := clamp ((progress - 1 + FF_TIME) / FF_TIME) 0 1.

(** The formula of the specification for the local progress of a phase
    that starts at [start] and lasts [duration]; the three definitions
    above are compared with it in [local_is_phase_local]. *)
Definition spec_phase_local (start duration progress : Q) : Q :=
  clamp ((progress - start) / duration) 0 1.

Definition tbProgress (progress : Q) : Q := smoothstep 0 1 (tbLocal progress).
Definition lrProgress (progress : Q) : Q := smoothstep 0 1 (lrLocal progress).
Definition ffProgress (progress : Q) : Q := smoothstep 0 1 (ffLocal progress).

(** [float tb = cogl_tex_coord_in[0].t * 2; tb = tb < 1 ? tb : 2 - tb;]
    and the same two statements for [lr] on the [s] coordinate. *)
Definition gradient (coord : Q) : Q :=
  let g := coord * 2 in
  if Qlt_le_dec g 1 then g else 2 - g.

Definition tb (t : Q) : Q := gradient t.
Definition lr (s : Q) : Q := gradient s.

(** The expression shared by [tbMask] and [lrMask]:
    [1 - smoothstep(0, 1, clamp((eased - g) / BLUR_WIDTH, 0, 1))]. *)
Definition phaseMask (eased g : Q) : Q :=
  1 - smoothstep 0 1 (clamp ((eased - g) / BLUR_WIDTH) 0 1).

Definition tbMask (progress t : Q) : Q := phaseMask (tbProgress progress) (tb t).
Definition lrMask (progress s : Q) : Q := phaseMask (lrProgress progress) (lr s).
Definition ffMask (progress : Q) : Q := 1 - smoothstep 0 1 (ffProgress progress).

(** [float mask = tbMask * lrMask * ffMask;] *)
Definition mask (progress s t : Q) : Q :=
  tbMask progress t * lrMask progress s * ffMask progress.

(** The final mask as a function of the two host uniforms. *)
Definition finalMask (uForOpening : bool) (uProgress s t : Q) : Q :=
  mask (progress uForOpening uProgress) s t.

(** The statements that write [cogl_color_out], in source order. *)

(** [if (cogl_color_out.a > 0) { cogl_color_out.rgb /= cogl_color_out.a; }] *)
Definition unpremultiply (c : vec4) : vec4 :=
  if Qlt_le_dec 0 (a c) then Vec4 (vec3_div (rgb c) (a c)) (a c) else c.

(** [cogl_color_out.rgb = mix(cogl_color_out.rgb, uColor * cogl_color_out.a,
                              smoothstep(0, 1, progress));] *)
Definition blend (uColor : vec3) (progress : Q) (c : vec4) : vec4 :=
  Vec4 (vec3_mix (rgb c) (vec3_scale uColor (a c)) (smoothstep 0 1 progress)) (a c).

(** [cogl_color_out.a *= mask;] *)
Definition applyMask (m : Q) (c : vec4) : vec4 := Vec4 (rgb c) (a c * m).

(** The whole [code] block: [uTexture] is the sampler, [(s, t)] the
    texture coordinate [cogl_tex_coord_in[0].st]. *)
Definition fragment (uForOpening : bool) (uProgress : Q) (uColor : vec3)
    (uTexture : Q -> Q -> vec4) (s t : Q) : vec4 :=
  let progress := progress uForOpening uProgress in
  let mask := mask progress s t in
  let cogl_color_out := uTexture s t in
  let cogl_color_out := unpremultiply cogl_color_out in
  let cogl_color_out := blend uColor progress cogl_color_out in
  applyMask mask cogl_color_out.

End TVShader.

(* ===================================================================== *)
(** ** What both effects borrow from the host *)
(* ===================================================================== *)

Module Host.
Local Open Scope Q_scope.

(** A [Gio.Settings] object, read through its typed getters. *)
Record Settings : Type := {
  get_string  : string -> string;
  get_boolean : string -> bool;
  get_double  : string -> Q;
  get_int     : string -> Z
}.

(** The window actor; only its height is read. *)
Record Actor : Type := { height : Q }.

(** A [Clutter.Color]: four channels. *)
Record Color : Type := { red : Z; green : Z; blue : Z; alpha : Z }.

(** The float uniforms of one [Shell.GLSLEffect], keyed by the location
    handle that [get_uniform_location] returned. *)
Definition set_uniform_float (uniform : Z) (n_components : nat) (value : list Q)
    (uniforms : gmap Z (list Q)) : gmap Z (list Q) :=
  <[uniform := value]> uniforms.

(** JavaScript's [Math.max] on two numbers. *)
Definition Math_max (x y : Q) : Q := if Qlt_le_dec x y then y else x.

End Host.

(* ===================================================================== *)
(** ** The shader pool of [TVEffect.js] *)
(* ===================================================================== *)

Module TVPool.
Import Host.
Local Open Scope Q_scope.

(** An instance of [ShaderClass]: the location stored by [_init] and the
    uniform values the effect currently holds. *)
Record ShaderClass : Type := {
  _uColor  : Z;
  uniforms : gmap Z (list Q)
}.

(** The module-level state.  Objects are identified by their index in
    [objects] (an index is never reused, as two live JavaScript objects
    never share an identity); [freeShaders] is the array of the source and
    holds references, not copies. *)
Record State : Type := {
  freeShaders : list nat;
  objects     : list ShaderClass
}.

(** The state right after the module is loaded: [let freeShaders = [];]. *)
Definition initial : State := {| freeShaders := []; objects := [] |}.

Section WithHost.

(** [Shell.GLSLEffect.get_uniform_location] and
    [Clutter.Color.from_string], supplied by the host. *)
Variable get_uniform_location : string -> Z.
Variable from_string : string -> bool * Color.

(** [new ShaderClass()]: a fresh object, initialised by [_init]. *)
Definition new_ShaderClass (st : State) : nat * State :=
  (length (objects st),
   {| freeShaders := freeShaders st;
      objects := objects st ++
        [ {| _uColor := get_uniform_location "uColor"; uniforms := ∅ |} ] |}).

(** [setUniforms(actor, settings, forOpening)] on the object [this].
    A method is always called on an existing object, so the [None] branch
    is never taken from [getShader] on a well-formed pool. *)
Definition setUniforms (this : nat) (actor : Actor) (settings : Settings)
    (forOpening : bool) (st : State) : State :=
  match objects st !! this with
  | Some o =>
      let c := snd (from_string (get_string settings "tv-effect-color")) in
      let o' :=
        {| _uColor := _uColor o;
           uniforms := set_uniform_float (_uColor o) 3
                         [ inject_Z (red c) / 255;
                           inject_Z (green c) / 255;
                           inject_Z (blue c) / 255 ] (uniforms o) |} in
      {| freeShaders := freeShaders st; objects := <[this := o']> (objects st) |}
  | None => st
  end.

(** [free()] on the object [this]: [freeShaders.push(this);]. *)
Definition free (this : nat) (st : State) : State :=
  {| freeShaders := freeShaders st ++ [this]; objects := objects st |}.

(** [freeShaders.pop()]: removes the last element and returns it.
    [getShader] only pops a non-empty array; on an empty one JavaScript
    returns [undefined], for which the default [0] stands here. *)
Definition pop (st : State) : nat * State :=
  (List.last (freeShaders st) 0%nat,
   {| freeShaders := removelast (freeShaders st); objects := objects st |}).

(** [static getShader(actor, settings, forOpening)]. *)
Definition getShader (actor : Actor) (settings : Settings) (forOpening : bool)
    (st : State) : nat * State :=
  let '(shader, st1) :=
    if (length (freeShaders st) =? 0)%nat then new_ShaderClass st else pop st in
  (shader, setUniforms shader actor settings forOpening st1).

(** [static cleanUp()]: [freeShaders = [];]. *)
Definition cleanUp (st : State) : State :=
  {| freeShaders := []; objects := objects st |}.

(** The calls the extension makes on the pool. *)
Inductive call : Type :=
  | GetShader (actor : Actor) (settings : Settings) (forOpening : bool)
  | Free (shader : nat)
  | CleanUp.

(** Runs a sequence of calls; returns the instances handed out by the
    [getShader] calls, in order, and the final state. *)
Fixpoint run (cs : list call) (st : State) : list nat * State :=
  match cs with
  | [] => ([], st)
  | GetShader actor settings forOpening :: cs' =>
      let '(x, st1) := getShader actor settings forOpening st in
      let '(xs, st2) := run cs' st1 in
      (x :: xs, st2)
  | Free x :: cs' => run cs' (free x st)
  | CleanUp :: cs' => run cs' (cleanUp st)
  end.

(** The discipline of the extension: [free] is only called on an
    instance that [getShader] handed out and that was not freed since.
    [out] is the set of such outstanding instances. *)
Fixpoint disciplined (out : gset nat) (cs : list call) (st : State) : Prop :=
  match cs with
  | [] => True
  | GetShader actor settings forOpening :: cs' =>
      let '(x, st1) := getShader actor settings forOpening st in
      disciplined (out ∪ {[x]}) cs' st1
  | Free x :: cs' => x ∈ out /\ disciplined (out ∖ {[x]}) cs' (free x st)
  | CleanUp :: cs' => disciplined out cs' (cleanUp st)
  end.

(** The value [setUniforms] computes from the settings: the three colour
    channels of ['tv-effect-color'], each divided by 255. *)
Definition configured_uColor (settings : Settings) : list Q :=
  let c := snd (from_string (get_string settings "tv-effect-color")) in
  [ inject_Z (red c) / 255; inject_Z (green c) / 255; inject_Z (blue c) / 255 ].

(** The uniform value a frame reads for [uColor] on instance [x]. *)
Definition uColor_of (x : nat) (st : State) : option (list Q) :=
  o ← objects st !! x; uniforms o !! _uColor o.

End WithHost.

(** The pool is well formed: no instance is listed twice in
    [freeShaders], and every listed instance is an existing object. *)
Definition wf (st : State) : Prop :=
  NoDup (freeShaders st) /\
  forall x, x ∈ freeShaders st -> (x < length (objects st))%nat.

(** [wf] extended with the set of outstanding instances. *)
Definition inv (out : gset nat) (st : State) : Prop :=
  wf st /\
  (forall x, x ∈ freeShaders st -> x ∉ out) /\
  (forall x, x ∈ out -> (x < length (objects st))%nat).

End TVPool.

(* ===================================================================== *)
(** ** The Doom effect: writing the uniforms *)
(* ===================================================================== *)

Module Doom.
Import Host.
Local Open Scope Q_scope.

(** A shader created by the [ShaderFactory], with the four locations the
    creation callback stores on it. *)
Record Shader : Type := {
  _uActorScale      : Z;
  _uHorizontalScale : Z;
  _uVerticalScale   : Z;
  _uPixelSize       : Z;
  uniforms          : gmap Z (list Q)
}.

Definition with_uniforms (shader : Shader) (u : gmap Z (list Q)) : Shader :=
  {| _uActorScale := _uActorScale shader;
     _uHorizontalScale := _uHorizontalScale shader;
     _uVerticalScale := _uVerticalScale shader;
     _uPixelSize := _uPixelSize shader;
     uniforms := u |}.

(** [shader.set_uniform_float(uniform, n, value)]. *)
Definition set_float (uniform : Z) (n : nat) (value : list Q) (shader : Shader) : Shader :=
  with_uniforms shader (set_uniform_float uniform n value (uniforms shader)).

(** The callback given to [new ShaderFactory]: stores the locations. *)
Definition created (get_uniform_location : string -> Z) (u : gmap Z (list Q)) : Shader :=
  {| _uActorScale      := get_uniform_location "uActorScale";
     _uHorizontalScale := get_uniform_location "uHorizontalScale";
     _uVerticalScale   := get_uniform_location "uVerticalScale";
     _uPixelSize       := get_uniform_location "uPixelSize";
     uniforms := u |}.

(** The [begin-animation] handler; [stage_height] is
    [global.stage.height].  The quotient is the division of [Q], which is
    0 for a divisor 0 where JavaScript gives [Infinity] or [NaN]: the
    value of [actorScale] follows the source for an actor height other
    than 0 only. *)
Definition begin_animation (stage_height : Q) (shader : Shader) (settings : Settings)
    (forOpening : bool) (actor : Actor) : Shader :=
  let actorScale := 2 * Math_max 1 (stage_height / height actor) in
  let testMode := get_boolean settings "test-mode" in
  let shader := set_float (_uActorScale shader) 1
                  [if testMode then 1 else actorScale] shader in
  let shader := set_float (_uHorizontalScale shader) 1
                  [get_double settings "doom-horizontal-scale"] shader in
  let shader := set_float (_uVerticalScale shader) 1
                  [if testMode then 500 else get_double settings "doom-vertical-scale"] shader in
  let shader := set_float (_uPixelSize shader) 1
                  [inject_Z (get_int settings "doom-pixel-size")] shader in
  shader.

(** [getActorScale(settings, forOpening, actor)]: the pair [{x, y}];
    as for the handler, [y] follows the source for an actor height other
    than 0 only. *)
Definition getActorScale (stage_height : Q) (settings : Settings) (forOpening : bool)
    (actor : Actor) : Q * Q :=
  let actorScale := 2 * Math_max 1 (stage_height / height actor) in
  (1, actorScale).

(** The four stored locations name four different uniforms. *)
Definition distinct_locations (shader : Shader) : Prop :=
  _uActorScale shader <> _uHorizontalScale shader /\
  _uActorScale shader <> _uVerticalScale shader /\
  _uActorScale shader <> _uPixelSize shader /\
  _uVerticalScale shader <> _uPixelSize shader.

End Doom.

(* ===================================================================== *)
(** ** The static parts of the two effect classes *)
(* ===================================================================== *)

Module Effects.
Import Host.
Local Open Scope Q_scope.

(** One entry of the object [tweakTransition] returns:
    [{from: ..., to: ..., mode: ...}]. *)
Record Curve : Type := { from : Q; to : Q; mode : Z }.

(** [TVEffect.tweakTransition(actor, settings, forOpening)]: the object
    literal, as the list of its properties in source order. *)
Definition tweakTransition (actor : Actor) (settings : Settings) (forOpening : bool)
    : list (string * Curve) :=
  [ ("opacity", {| from := 255; to := 255; mode := 3 |});
    ("scale-x", {| from := 1; to := 1; mode := 3 |});
    ("scale-y", {| from := if forOpening then 0.5 else 1;
                   to := if forOpening then 1 else 0.5; mode := 3 |}) ].

(** The same transition played backwards. *)
Definition reversed (c : Curve) : Curve :=
  {| from := to c; to := from c; mode := mode c |}.

(** The calls [getPreferences] makes on the preferences dialog and on its
    builder. *)
Inductive dialog_call : Type :=
  | add_from_resource (path : string)
  | bindAdjustment (key : string)
  | bindColorButton (key : string)
  | get_object (name : string).

(** [TVEffect.getPreferences(dialog)]; [gtk] is [utils.getGTKString()]. *)
Definition TV_getPreferences (gtk : string) : list dialog_call :=
  [ add_from_resource ("/ui/" ++ gtk ++ "/TVEffect.ui");
    bindAdjustment "tv-animation-time";
    bindColorButton "tv-effect-color";
    get_object "tv-prefs" ].

(** [Doom.getPreferences(dialog)]. *)
Definition Doom_getPreferences (gtk : string) : list dialog_call :=
  [ add_from_resource ("/ui/" ++ gtk ++ "/Doom.ui");
    bindAdjustment "doom-animation-time";
    bindAdjustment "doom-horizontal-scale";
    bindAdjustment "doom-vertical-scale";
    bindAdjustment "doom-pixel-size";
    get_object "doom-prefs" ].

(** The settings keys a sequence of dialog calls binds to a widget. *)
Fixpoint bound_keys (calls : list dialog_call) : list string :=
  match calls with
  | [] => []
  | bindAdjustment key :: calls' => key :: bound_keys calls'
  | bindColorButton key :: calls' => key :: bound_keys calls'
  | _ :: calls' => bound_keys calls'
  end.

(** Two settings objects hold the same values under the given keys. *)
Definition agree_on (keys : list string) (s1 s2 : Settings) : Prop :=
  forall key, key ∈ keys ->
    get_string s1 key = get_string s2 key /\
    get_double s1 key = get_double s2 key /\
    get_int s1 key = get_int s2 key.

End Effects.

(* ===================================================================== *)
(** ** Measures on call sequences of the pool *)
(* ===================================================================== *)

Module PoolStats.
Import TVPool.

(** The largest number of instances outstanding at any moment of a call
    sequence that starts with [cur] of them outstanding. *)
Fixpoint peak_outstanding (cur : nat) (cs : list call) : nat :=
  match cs with
  | [] => cur
  | GetShader _ _ _ :: cs' => Nat.max cur (peak_outstanding (S cur) cs')
  | Free _ :: cs' => Nat.max cur (peak_outstanding (pred cur) cs')
  | CleanUp :: cs' => Nat.max cur (peak_outstanding cur cs')
  end.

(** The instances outstanding after a call sequence that started with
    the instances [out] outstanding. *)
Fixpoint outstanding_after (get_uniform_location : string -> Z)
    (from_string : string -> bool * Host.Color)
    (out : gset nat) (cs : list call) (st : State) : gset nat :=
  match cs with
  | [] => out
  | GetShader actor settings forOpening :: cs' =>
      let '(x, st1) :=
        getShader get_uniform_location from_string actor settings forOpening st in
      outstanding_after get_uniform_location from_string (out ∪ {[x]}) cs' st1
  | Free x :: cs' =>
      outstanding_after get_uniform_location from_string (out ∖ {[x]}) cs' (free x st)
  | CleanUp :: cs' =>
      outstanding_after get_uniform_location from_string out cs' (cleanUp st)
  end.

(** The sequence never calls [cleanUp]. *)
Fixpoint no_cleanUp (cs : list call) : bool :=
  match cs with
  | [] => true
  | CleanUp :: _ => false
  | _ :: cs' => no_cleanUp cs'
  end.

End PoolStats.

(* ===================================================================== *)
(** ** Concrete inputs *)
(* ===================================================================== *)

(** Inputs on which the theorems below are evaluated. *)
Module Samples.
Import GLSL Host.
Local Open Scope Q_scope.

Definition white : vec3 := Vec3 1 1 1.

(** A half-transparent, premultiplied texel everywhere. *)
Definition premultiplied (s t : Q) : vec4 := Vec4 (Vec3 (1 # 4) (1 # 8) 0) (1 # 2).

(** A fully transparent texel everywhere. *)
Definition transparent (s t : Q) : vec4 := Vec4 (Vec3 (1 # 4) (1 # 8) 0) 0.

Definition get_uniform_location (name : string) : Z :=
  if String.eqb name "uColor" then 0
  else if String.eqb name "uActorScale" then 1
  else if String.eqb name "uHorizontalScale" then 2
  else if String.eqb name "uVerticalScale" then 3
  else if String.eqb name "uPixelSize" then 4
  else (-1).

(** Parses nothing: every string is taken for orange. *)
Definition from_string (text : string) : bool * Color :=
  (true, {| red := 255; green := 102; blue := 0; alpha := 255 |}).

Definition settings : Settings :=
  {| get_string := fun _ => "#ff6600";
     get_boolean := fun _ => false;
     get_double := fun _ => 2;
     get_int := fun _ => 5%Z |}.

Definition test_settings : Settings :=
  {| get_string := fun _ => "#ff6600";
     get_boolean := fun _ => true;
     get_double := fun _ => 2;
     get_int := fun _ => 5%Z |}.

Definition actor : Actor := {| height := 600 |}.

(** As [settings], but for a key that neither effect reads. *)
Definition settings_elsewhere : Settings :=
  {| get_string := fun _ => "#ff6600";
     get_boolean := fun _ => false;
     get_double := fun key => if String.eqb key "fire-scale" then 9 else 2;
     get_int := fun _ => 5%Z |}.

(** The pool after one transition has run and returned its shader. *)
Definition used_pool : TVPool.State :=
  TVPool.free 0
    (snd (TVPool.getShader get_uniform_location from_string actor settings false
            TVPool.initial)).

(** A second transition on the pool after a [cleanUp]. *)
Definition second_transition : list TVPool.call :=
  [ TVPool.GetShader actor settings true; TVPool.Free 1%nat;
    TVPool.GetShader actor settings false ].

(** Two transitions that overlap, and a third that starts when the first
    has ended. *)
Definition overlapping : list TVPool.call :=
  [ TVPool.GetShader actor settings false; TVPool.GetShader actor settings true;
    TVPool.Free 0%nat; TVPool.GetShader actor test_settings false;
    TVPool.Free 1%nat ].

(** A Doom shader as the factory callback leaves it. *)
Definition doom_shader : Doom.Shader := Doom.created get_uniform_location ∅.

End Samples.

(* ===================================================================== *)
(** ** Facts about the GLSL built-ins *)
(* ===================================================================== *)

Section GLSLFacts.
Import GLSL.
Local Open Scope Q_scope.

Ltac by_cases := unfold clamp, min, max; repeat destruct Qlt_le_dec; try lra.

Lemma clamp_bounds (x lo hi : Q) : lo <= hi -> lo <= clamp x lo hi <= hi.
Proof. intros H. by_cases. Qed.

Lemma clamp_monotone (x y lo hi : Q) : x <= y -> clamp x lo hi <= clamp y lo hi.
Proof. intros H. by_cases. Qed.

Lemma clamp_below (x lo hi : Q) : lo <= hi -> x <= lo -> clamp x lo hi == lo.
Proof. intros H1 H2. by_cases. Qed.

Lemma clamp_above (x lo hi : Q) : lo <= hi -> hi <= x -> clamp x lo hi == hi.
Proof. intros H1 H2. by_cases. Qed.

Lemma clamp_inside (x lo hi : Q) : lo <= x <= hi -> clamp x lo hi == x.
Proof. intros H. by_cases. Qed.

#[export] Instance max_proper : Proper (Qeq ==> Qeq ==> Qeq) max.
Proof. intros x x' Hx y y' Hy. unfold max. repeat destruct Qlt_le_dec; lra. Qed.

#[export] Instance min_proper : Proper (Qeq ==> Qeq ==> Qeq) min.
Proof. intros x x' Hx y y' Hy. unfold min. repeat destruct Qlt_le_dec; lra. Qed.

#[export] Instance clamp_proper : Proper (Qeq ==> Qeq ==> Qeq ==> Qeq) clamp.
Proof.
  intros x x' Hx lo lo' Hlo hi hi' Hhi. unfold clamp.
  now rewrite Hx, Hlo, Hhi.
Qed.

#[export] Instance smoothstep_proper : Proper (Qeq ==> Qeq ==> Qeq ==> Qeq) smoothstep.
Proof.
  intros e0 e0' H0 e1 e1' H1 x x' Hx. unfold smoothstep.
  now rewrite H0, H1, Hx.
Qed.

#[export] Instance mix_proper : Proper (Qeq ==> Qeq ==> Qeq ==> Qeq) mix.
Proof. intros x x' Hx y y' Hy w w' Hw. unfold mix. now rewrite Hx, Hy, Hw. Qed.

(** Between the edges 0 and 1 the argument is used as it is. *)
Lemma smoothstep_unit (x : Q) :
  smoothstep 0 1 x == clamp x 0 1 * clamp x 0 1 * (3 - 2 * clamp x 0 1).
Proof.
  unfold smoothstep. cbv zeta.
  assert (E : (x - 0) / (1 - 0) == x) by field.
  now rewrite E.
Qed.

Lemma smoothstep_low (x : Q) : x <= 0 -> smoothstep 0 1 x == 0.
Proof.
  intros H. rewrite smoothstep_unit, (clamp_below x 0 1) by lra. lra.
Qed.

Lemma smoothstep_high (x : Q) : 1 <= x -> smoothstep 0 1 x == 1.
Proof.
  intros H. rewrite smoothstep_unit, (clamp_above x 0 1) by lra. lra.
Qed.

End GLSLFacts.

(* ===================================================================== *)
(** ** The masks of the TV effect *)
(* ===================================================================== *)

Section TVShaderFacts.
Import GLSL TVShader.
Local Open Scope Q_scope.

(** Turns a division by one of the constants into a multiplication. *)
Ltac constants :=
  unfold BLUR_WIDTH, TB_TIME, LR_TIME, LR_DELAY, FF_TIME, Qdiv in *;
  cbn [Qinv Qnum Qden] in *.

#[export] Instance phaseMask_proper : Proper (Qeq ==> Qeq ==> Qeq) phaseMask.
Proof. intros e e' He g g' Hg. unfold phaseMask. now rewrite He, Hg. Qed.

#[export] Instance mask_proper : Proper (Qeq ==> eq ==> eq ==> Qeq) mask.
Proof.
  intros p p' Hp s ? <- t ? <-.
  unfold mask, tbMask, lrMask, ffMask, tbProgress, lrProgress, ffProgress,
    tbLocal, lrLocal, ffLocal.
  now rewrite Hp.
Qed.

(** The folded gradient of a normalised coordinate lies in [0, 1]. *)
Lemma gradient_bounds (c : Q) : 0 <= c <= 1 -> 0 <= gradient c <= 1.
Proof. intros H. unfold gradient. cbv zeta. destruct Qlt_le_dec; lra. Qed.

(** Where the eased progress has not reached the gradient value, the
    pixel is untouched. *)
Lemma phaseMask_ahead (eased g : Q) : eased <= g -> phaseMask eased g == 1.
Proof.
  intros H. unfold phaseMask.
  rewrite (clamp_below ((eased - g) / BLUR_WIDTH) 0 1); [| lra | constants; lra].
  rewrite smoothstep_low; lra.
Qed.

(** Where it has passed the gradient value by the blur width, the pixel
    is masked out. *)
Lemma phaseMask_passed (eased g : Q) : g + BLUR_WIDTH <= eased -> phaseMask eased g == 0.
Proof.
  intros H. unfold phaseMask.
  rewrite (clamp_above ((eased - g) / BLUR_WIDTH) 0 1); [| lra | constants; lra].
  rewrite smoothstep_high; lra.
Qed.

Lemma phaseMask_bounds (eased g : Q) : 0 <= phaseMask eased g <= 1.
Proof.
  unfold phaseMask. rewrite smoothstep_unit.
  set (u := clamp ((eased - g) / BLUR_WIDTH) 0 1).
  pose proof (clamp_bounds u 0 1) as Hb.
  set (v := clamp u 0 1) in *.
  assert (Hv : 0 <= v <= 1) by (apply Hb; lra).
  assert (H1 : 0 <= (v * v) * (3 - 2 * v)).
  { apply Qmult_le_0_compat; [apply Qmult_le_0_compat |]; lra. }
  assert (H2 : 0 <= ((1 - v) * (1 - v)) * (1 + 2 * v)).
  { apply Qmult_le_0_compat; [apply Qmult_le_0_compat |]; lra. }
  assert (E : 1 - v * v * (3 - 2 * v) == (1 - v) * (1 - v) * (1 + 2 * v)) by ring.
  lra.
Qed.

(** The three local progress values are the specification's formula at
    (start, duration) = (0, 0.7), (0.6, 0.4) and (0.9, 0.1). *)
Lemma local_is_phase_local (p : Q) :
  tbLocal p == spec_phase_local 0 0.7 p /\
  lrLocal p == spec_phase_local 0.6 0.4 p /\
  ffLocal p == spec_phase_local 0.9 0.1 p.
Proof.
  unfold tbLocal, lrLocal, ffLocal, spec_phase_local.
  repeat split; apply clamp_proper; try reflexivity; constants; lra.
Qed.

Lemma spec_phase_local_monotone_bounded (start duration p q : Q) :
  0 < duration -> p <= q ->
  spec_phase_local start duration p <= spec_phase_local start duration q /\
  0 <= spec_phase_local start duration p <= 1.
Proof.
  intros Hd Hpq. unfold spec_phase_local. split.
  - apply clamp_monotone. unfold Qdiv.
    apply Qmult_le_compat_r; [lra |].
    apply Qlt_le_weak, Qinv_lt_0_compat, Hd.
  - apply clamp_bounds. lra.
Qed.

(** C1, as the code has it.  On the edge of the window (gradient value 0)
    the mask is 0 as soon as the eased progress has reached the blur
    width 0.01; in the centre (gradient value 1) the mask is still 1 when
    the eased progress is 1. *)
Theorem phaseMask_edge_and_centre (eased : Q) (H : BLUR_WIDTH <= eased) :
  phaseMask eased 0 == 0 /\ phaseMask 1 1 == 1.
Proof.
  split.
  - apply phaseMask_passed. lra.
  - apply phaseMask_ahead. lra.
Qed.

Lemma phaseMask_edge_and_centre_witness :
  BLUR_WIDTH <= 1 # 2 /\ phaseMask (1 # 2) 0 == 0 /\ phaseMask 1 1 == 1.
Proof.
  assert (H : BLUR_WIDTH <= 1 # 2) by (unfold BLUR_WIDTH; lra).
  split; [exact H | exact (phaseMask_edge_and_centre (1 # 2) H)].
Defined.

(** C1 as the specification words it fails: at eased progress 1 (which is
    greater than 0) the mask at gradient value 0 is not 1, and the mask at
    gradient value 1 is not 0. *)
Lemma phaseMask_edge_one_centre_zero_fails :
  0 < 1 /\ ~ phaseMask 1 0 == 1 /\ ~ phaseMask 1 1 == 0.
Proof.
  split; [lra |]. split; intros E; vm_compute in E; discriminate E.
Qed.

(** C5.  Each of the three local progress values of the code (top/bottom:
    start 0, duration 0.7; left/right: start 0.6, duration 0.4; final
    fade: start 0.9, duration 0.1) is non-decreasing in the progress and
    lies in [0, 1]. *)
Theorem local_progress_monotone_bounded (p q : Q) (Hpq : p <= q) :
  (tbLocal p <= tbLocal q /\ 0 <= tbLocal p <= 1) /\
  (lrLocal p <= lrLocal q /\ 0 <= lrLocal p <= 1) /\
  (ffLocal p <= ffLocal q /\ 0 <= ffLocal p <= 1).
Proof.
  unfold tbLocal, lrLocal, ffLocal.
  repeat split;
    first [ apply clamp_monotone; constants; lra
          | apply (clamp_bounds _ 0 1); lra ].
Qed.

Lemma local_progress_monotone_bounded_witness :
  (tbLocal (1 # 4) <= tbLocal (3 # 4) /\ 0 <= tbLocal (1 # 4) <= 1) /\
  (lrLocal (1 # 4) <= lrLocal (3 # 4) /\ 0 <= lrLocal (1 # 4) <= 1) /\
  (ffLocal (1 # 4) <= ffLocal (3 # 4) /\ 0 <= ffLocal (1 # 4) <= 1).
Proof.
  apply (local_progress_monotone_bounded (1 # 4) (3 # 4)). lra.
Defined.

Lemma eased_at_start : tbProgress 0 == 0 /\ lrProgress 0 == 0 /\ ffMask 0 == 1.
Proof. repeat split. Qed.

Lemma ffMask_at_end : ffMask 1 == 0.
Proof. reflexivity. Qed.

(** C3.  For a closing transition the final mask is 1 at progress 0 and 0
    at progress 1, at every normalised texture coordinate. *)
Theorem closing_mask_endpoints (s t : Q) (Hs : 0 <= s <= 1) (Ht : 0 <= t <= 1) :
  finalMask false 0 s t == 1 /\ finalMask false 1 s t == 0.
Proof.
  unfold finalMask, progress, mask. split.
  - destruct eased_at_start as (Htb & Hlr & Hff).
    pose proof (gradient_bounds s Hs). pose proof (gradient_bounds t Ht).
    unfold tbMask, lrMask, tb, lr.
    rewrite (phaseMask_ahead (tbProgress 0)), (phaseMask_ahead (lrProgress 0)), Hff; lra.
  - rewrite ffMask_at_end. lra.
Qed.

Lemma closing_mask_endpoints_witness :
  finalMask false 0 (1 # 2) (1 # 3) == 1 /\ finalMask false 1 (1 # 2) (1 # 3) == 0.
Proof.
  apply closing_mask_endpoints; lra.
Defined.

(** At progress 1 the final fade alone closes the mask, whatever the
    coordinate. *)
Lemma closing_mask_end_everywhere (s t : Q) : finalMask false 1 s t == 0.
Proof. unfold finalMask, progress, mask. rewrite ffMask_at_end. lra. Qed.

(** The fragment colour depends on [uForOpening] and [uProgress] only
    through [progress]. *)
Lemma fragment_through_progress (fo1 fo2 : bool) (p1 p2 : Q) (uColor : vec3)
    (uTexture : Q -> Q -> vec4) (s t : Q) :
  progress fo1 p1 == progress fo2 p2 ->
  finalMask fo1 p1 s t == finalMask fo2 p2 s t /\
  vec4_eq (fragment fo1 p1 uColor uTexture s t) (fragment fo2 p2 uColor uTexture s t).
Proof.
  intros H. unfold finalMask, fragment. cbv zeta.
  set (c := unpremultiply (uTexture s t)).
  unfold applyMask, blend, vec4_eq, vec3_eq, vec3_mix. cbn [rgb a vx vy vz].
  now rewrite H.
Qed.

(** C2.  The final mask, and the whole fragment colour, of an opening
    transition at progress [p] are those of a closing transition at
    progress [1 - p]; more generally two frames with the same reversed
    progress get the same mask and colour. *)
Theorem opening_is_closing_reversed (p s t : Q) (uColor : vec3)
    (uTexture : Q -> Q -> vec4) :
  (finalMask true p s t == finalMask false (1 - p) s t /\
   vec4_eq (fragment true p uColor uTexture s t)
           (fragment false (1 - p) uColor uTexture s t)) /\
  (forall (fo : bool) (q : Q),
     progress fo q == progress true p ->
     finalMask fo q s t == finalMask true p s t /\
     vec4_eq (fragment fo q uColor uTexture s t) (fragment true p uColor uTexture s t)).
Proof.
  split.
  - apply fragment_through_progress. reflexivity.
  - intros fo q H. now apply fragment_through_progress.
Qed.

Lemma opening_is_closing_reversed_witness :
  finalMask false (7 # 10) (1 # 2) (1 # 3) == finalMask true (3 # 10) (1 # 2) (1 # 3) /\
  vec4_eq (fragment false (7 # 10) Samples.white Samples.premultiplied (1 # 2) (1 # 3))
          (fragment true (3 # 10) Samples.white Samples.premultiplied (1 # 2) (1 # 3)).
Proof.
  apply (opening_is_closing_reversed (3 # 10) (1 # 2) (1 # 3)
           Samples.white Samples.premultiplied).
  reflexivity.
Defined.

(** C7.  The sampled colour is divided by its alpha once, in the
    statement that precedes the blend, and only when the alpha is
    positive: the blend mixes [rgb / a] (or the untouched [rgb] when
    [a <= 0]) with the tint, and nothing divides afterwards. *)
Theorem straight_alpha_once_before_blend (uForOpening : bool) (uProgress : Q)
    (uColor : vec3) (uTexture : Q -> Q -> vec4) (s t : Q) :
  let c := uTexture s t in
  let w := smoothstep 0 1 (progress uForOpening uProgress) in
  a (fragment uForOpening uProgress uColor uTexture s t)
    = a c * finalMask uForOpening uProgress s t /\
  (0 < a c ->
   unpremultiply c = Vec4 (vec3_div (rgb c) (a c)) (a c) /\
   rgb (fragment uForOpening uProgress uColor uTexture s t)
     = vec3_mix (vec3_div (rgb c) (a c)) (vec3_scale uColor (a c)) w) /\
  (a c <= 0 ->
   unpremultiply c = c /\
   rgb (fragment uForOpening uProgress uColor uTexture s t)
     = vec3_mix (rgb c) (vec3_scale uColor (a c)) w).
Proof.
  intros c w. unfold fragment. cbv zeta. fold c. unfold unpremultiply.
  split; [| split].
  - destruct Qlt_le_dec; reflexivity.
  - intros Ha. destruct Qlt_le_dec as [_ | Hle]; [| lra]. split; reflexivity.
  - intros Ha. destruct Qlt_le_dec as [Hlt | _]; [lra |]. split; reflexivity.
Qed.

Lemma straight_alpha_once_before_blend_witness :
  rgb (fragment false 0 Samples.white Samples.premultiplied (1 # 2) (1 # 2))
    = vec3_mix (Vec3 ((1 # 4) / (1 # 2)) ((1 # 8) / (1 # 2)) (0 / (1 # 2)))
               (vec3_scale Samples.white (1 # 2)) (smoothstep 0 1 0) /\
  rgb (fragment false 0 Samples.white Samples.transparent (1 # 2) (1 # 2))
    = vec3_mix (Vec3 (1 # 4) (1 # 8) 0)
               (vec3_scale Samples.white 0) (smoothstep 0 1 0).
Proof.
  split.
  - apply (straight_alpha_once_before_blend false 0 Samples.white
             Samples.premultiplied (1 # 2) (1 # 2)).
    reflexivity.
  - apply (straight_alpha_once_before_blend false 0 Samples.white
             Samples.transparent (1 # 2) (1 # 2)).
    cbn. lra.
Defined.

End TVShaderFacts.

(* ===================================================================== *)
(** ** The shader pool *)
(* ===================================================================== *)

Section TVPoolFacts.
Import Host TVPool.

Variable get_uniform_location : string -> Z.
Variable from_string : string -> bool * Color.

Local Abbreviation getShader := (TVPool.getShader get_uniform_location from_string).
Local Abbreviation setUniforms := (TVPool.setUniforms from_string).
Local Abbreviation new_ShaderClass := (TVPool.new_ShaderClass get_uniform_location).
Local Abbreviation run := (TVPool.run get_uniform_location from_string).
Local Abbreviation disciplined := (TVPool.disciplined get_uniform_location from_string).
Local Abbreviation configured_uColor := (TVPool.configured_uColor from_string).

Lemma setUniforms_freeShaders this actor settings forOpening st :
  freeShaders (setUniforms this actor settings forOpening st) = freeShaders st.
Proof. unfold TVPool.setUniforms. destruct (objects st !! this); reflexivity. Qed.

Lemma setUniforms_length this actor settings forOpening st :
  length (objects (setUniforms this actor settings forOpening st)) = length (objects st).
Proof.
  unfold TVPool.setUniforms. destruct (objects st !! this); cbn; [| reflexivity].
  apply length_insert.
Qed.

(** [setUniforms] overwrites [uColor] on an existing object, whatever it
    held before. *)
Lemma setUniforms_uColor this actor settings forOpening st :
  this < length (objects st) ->
  uColor_of this (setUniforms this actor settings forOpening st)
    = Some (configured_uColor settings).
Proof.
  intros Hlt. unfold TVPool.setUniforms, uColor_of.
  destruct (objects st !! this) as [o |] eqn:Ho.
  - cbn. rewrite list_lookup_insert_eq by exact Hlt. cbn.
    unfold set_uniform_float. apply lookup_insert_eq.
  - apply lookup_ge_None in Ho. lia.
Qed.

(** The two branches of [getShader]. *)
Lemma getShader_miss actor settings forOpening st :
  freeShaders st = [] ->
  getShader actor settings forOpening st
    = (length (objects st),
       setUniforms (length (objects st)) actor settings forOpening
         (snd (new_ShaderClass st))).
Proof. intros E. unfold TVPool.getShader. rewrite E. reflexivity. Qed.

Lemma getShader_hit actor settings forOpening st l x :
  freeShaders st = l ++ [x] ->
  getShader actor settings forOpening st
    = (x, setUniforms x actor settings forOpening
            {| freeShaders := l; objects := objects st |}).
Proof.
  intros E. unfold TVPool.getShader, pop. rewrite E.
  rewrite length_app, last_last, removelast_last. cbn.
  replace (length l + 1 =? 0) with false; [reflexivity |].
  symmetry. apply Nat.eqb_neq. lia.
Qed.

Lemma list_empty_or_last {A : Type} (l : list A) : l = [] \/ exists l' x, l = l' ++ [x].
Proof.
  destruct l as [| x l _] using rev_ind; [left; reflexivity | right; eauto].
Qed.

Lemma getShader_freeShaders actor settings forOpening st x st' :
  getShader actor settings forOpening st = (x, st') ->
  freeShaders st = freeShaders st' ++ [x] \/
  (freeShaders st = [] /\ freeShaders st' = [] /\ x = length (objects st)).
Proof.
  destruct (list_empty_or_last (freeShaders st)) as [E | (l & y & E)].
  - rewrite (getShader_miss _ _ _ _ E). intros [= <- <-]. right.
    rewrite setUniforms_freeShaders. cbn. auto.
  - rewrite (getShader_hit _ _ _ _ _ _ E). intros [= <- <-]. left.
    rewrite setUniforms_freeShaders. cbn. exact E.
Qed.

Lemma getShader_objects actor settings forOpening st x st' :
  getShader actor settings forOpening st = (x, st') ->
  length (objects st) <= length (objects st') /\
  (freeShaders st = [] -> length (objects st') = S (length (objects st))) /\
  (freeShaders st <> [] -> length (objects st') = length (objects st)).
Proof.
  destruct (list_empty_or_last (freeShaders st)) as [E | (l & y & E)].
  - rewrite (getShader_miss _ _ _ _ E). intros [= <- <-].
    rewrite setUniforms_length. cbn. rewrite length_app. cbn.
    repeat split; intros; try lia. congruence.
  - rewrite (getShader_hit _ _ _ _ _ _ E). intros [= <- <-].
    rewrite setUniforms_length. cbn.
    repeat split; intros; try lia. rewrite E in *. destruct l; discriminate.
Qed.

(** The instance handed out is an existing object. *)
Lemma getShader_allocated actor settings forOpening st x st' :
  wf st ->
  getShader actor settings forOpening st = (x, st') ->
  x < length (objects st').
Proof.
  intros [_ Hall] G.
  destruct (getShader_objects _ _ _ _ _ _ G) as (Hle & Hnew & _).
  destruct (getShader_freeShaders _ _ _ _ _ _ G) as [E | (E & _ & ->)].
  - assert (x < length (objects st)); [| lia].
    apply Hall. rewrite E. apply elem_of_app. right. apply list_elem_of_singleton.
    reflexivity.
  - rewrite (Hnew E). lia.
Qed.

(** [inv] is kept by every call that respects the discipline. *)
Lemma inv_getShader out actor settings forOpening st x st' :
  inv out st ->
  getShader actor settings forOpening st = (x, st') ->
  inv (out ∪ {[x]}) st'.
Proof.
  intros ((Hnd & Hall) & Hdisj & Hout) G.
  destruct (getShader_objects _ _ _ _ _ _ G) as (Hle & Hnew & Hsame).
  destruct (getShader_freeShaders _ _ _ _ _ _ G) as [E | (E & E' & ->)].
  - rewrite E in Hnd, Hall, Hdisj. apply NoDup_app in Hnd as (Hnd & Hx & _).
    assert (Hlen : length (objects st') = length (objects st)).
    { apply Hsame. rewrite E. destruct (freeShaders st'); discriminate. }
    repeat split.
    + exact Hnd.
    + intros y Hy. rewrite Hlen. apply Hall, elem_of_app. auto.
    + intros y Hy [Hin | ->%elem_of_singleton]%elem_of_union.
      * apply (Hdisj y); [apply elem_of_app; auto | exact Hin].
      * apply (Hx x Hy). apply list_elem_of_singleton. reflexivity.
    + intros y [Hin | ->%elem_of_singleton]%elem_of_union; rewrite Hlen.
      * apply Hout, Hin.
      * apply Hall, elem_of_app. right. apply list_elem_of_singleton. reflexivity.
  - unfold inv, wf. rewrite E'. repeat split.
    + constructor.
    + intros y Hy. inversion Hy.
    + intros y Hy. inversion Hy.
    + intros y [Hin | ->%elem_of_singleton]%elem_of_union; rewrite (Hnew E).
      * specialize (Hout y Hin). lia.
      * lia.
Qed.

Lemma inv_free out x st : inv out st -> x ∈ out -> inv (out ∖ {[x]}) (free x st).
Proof.
  intros ((Hnd & Hall) & Hdisj & Hout) Hx. unfold free. repeat split; cbn.
  - apply NoDup_app. repeat split.
    + exact Hnd.
    + intros y Hy ->%list_elem_of_singleton. exact (Hdisj x Hy Hx).
    + apply NoDup_singleton.
  - intros y [Hy | ->%list_elem_of_singleton]%elem_of_app; auto.
  - intros y [Hy | ->%list_elem_of_singleton]%elem_of_app.
    + intros [Hin _]%elem_of_difference. exact (Hdisj y Hy Hin).
    + intros [_ Hn]%elem_of_difference. apply Hn, elem_of_singleton. reflexivity.
  - intros y [Hy _]%elem_of_difference. exact (Hout y Hy).
Qed.

Lemma inv_cleanUp out st : inv out st -> inv out (cleanUp st).
Proof.
  intros ((Hnd & Hall) & Hdisj & Hout). unfold cleanUp. repeat split; cbn.
  - constructor.
  - intros y Hy. inversion Hy.
  - intros y Hy. inversion Hy.
  - exact Hout.
Qed.

Lemma inv_initial : inv ∅ initial.
Proof.
  repeat split; cbn.
  - constructor.
  - intros y Hy. inversion Hy.
  - intros y Hy. inversion Hy.
  - intros y Hy. apply elem_of_empty in Hy. destruct Hy.
Qed.

(** Every state the extension can reach from the freshly loaded module
    is well formed. *)
Lemma reachable_wf (cs : list call) : forall out st,
  inv out st -> disciplined out cs st -> wf (snd (run cs st)).
Proof.
  induction cs as [| [actor settings forOpening | x |] cs IH]; intros out st Hinv Hd; cbn in *.
  - apply Hinv.
  - destruct (getShader actor settings forOpening st) as [x st1] eqn:G.
    specialize (IH _ _ (inv_getShader _ _ _ _ _ _ _ Hinv G) Hd).
    destruct (run cs st1). exact IH.
  - destruct Hd as [Hx Hd]. exact (IH _ _ (inv_free _ _ _ Hinv Hx) Hd).
  - exact (IH _ _ (inv_cleanUp _ _ Hinv) Hd).
Qed.

(** After a call sequence that only frees instances handed out within
    it, every instance handed out is at least [n] if everything in the free
    list and everything outstanding is. *)
Lemma run_lower_bound (n : nat) (cs : list call) : forall (out : gset nat) st,
  (forall x, x ∈ freeShaders st -> n <= x) ->
  (forall x, x ∈ out -> n <= x) ->
  n <= length (objects st) ->
  disciplined out cs st ->
  forall x, x ∈ fst (run cs st) -> n <= x.
Proof.
  induction cs as [| [actor settings forOpening | y |] cs IH];
    intros out st Hfree Hout Hlen Hd x Hx; cbn in *.
  - inversion Hx.
  - destruct (getShader actor settings forOpening st) as [y st1] eqn:G.
    destruct (getShader_objects _ _ _ _ _ _ G) as (Hle & _ & _).
    assert (Hy : n <= y /\ forall z, z ∈ freeShaders st1 -> n <= z).
    { destruct (getShader_freeShaders _ _ _ _ _ _ G) as [E | (_ & E & ->)].
      - rewrite E in Hfree. split.
        + apply Hfree, elem_of_app. right. apply list_elem_of_singleton. reflexivity.
        + intros z Hz. apply Hfree, elem_of_app. auto.
      - split; [exact Hlen |]. rewrite E. intros z Hz. inversion Hz. }
    destruct Hy as [Hy Hfree1].
    destruct (run cs st1) as [xs st2] eqn:R. cbn in Hx.
    apply elem_of_cons in Hx as [-> | Hx]; [exact Hy |].
    apply (IH (out ∪ {[y]}) st1); try assumption.
    + intros z [Hz | ->%elem_of_singleton]%elem_of_union; auto.
    + lia.
    + rewrite R. exact Hx.
  - destruct Hd as [Hy Hd].
    apply (IH (out ∖ {[y]}) (free y st)); try assumption.
    + cbn. intros z [Hz | ->%list_elem_of_singleton]%elem_of_app; auto.
    + intros z [Hz _]%elem_of_difference. auto.
  - apply (IH out (cleanUp st)); try assumption.
    cbn. intros z Hz. inversion Hz.
Qed.

(** C4.  The instance of a [getShader] call that is freed right away is
    the one the next [getShader] call returns; without the [free], the
    next [getShader] call on a well-formed pool returns another instance. *)
Theorem pool_round_trip (actor : Actor) (settings : Settings) (forOpening : bool)
    (actor' : Actor) (settings' : Settings) (forOpening' : bool) (st : State) :
  let x := fst (getShader actor settings forOpening st) in
  let st1 := snd (getShader actor settings forOpening st) in
  fst (getShader actor' settings' forOpening' (free x st1)) = x /\
  (wf st -> fst (getShader actor' settings' forOpening' st1) <> x).
Proof.
  destruct (getShader actor settings forOpening st) as [x st1] eqn:G.
  cbv zeta. cbn [fst snd]. split.
  - now rewrite (getShader_hit _ _ _ (free x st1) (freeShaders st1) x).
  - intros [Hnd Hall].
    destruct (getShader_objects _ _ _ _ _ _ G) as (Hle & Hnew & Hsame).
    destruct (getShader_freeShaders _ _ _ _ _ _ G) as [E | (E & E1 & ->)].
    + assert (Hx : x < length (objects st)).
      { apply Hall. rewrite E. apply elem_of_app. right.
        apply list_elem_of_singleton. reflexivity. }
      destruct (list_empty_or_last (freeShaders st1)) as [E1 | (l & y & E1)].
      * rewrite (getShader_miss _ _ _ _ E1). cbn. lia.
      * rewrite (getShader_hit _ _ _ _ _ _ E1). cbn. intros ->.
        rewrite E, E1 in Hnd. apply NoDup_app in Hnd as (_ & Hdisj & _).
        apply (Hdisj x).
        -- apply elem_of_app. right. apply list_elem_of_singleton. reflexivity.
        -- apply list_elem_of_singleton. reflexivity.
    + rewrite (getShader_miss _ _ _ _ E1). cbn. rewrite (Hnew E). lia.
Qed.

(** C8.  [cleanUp] leaves an empty free list, a second [cleanUp] changes
    nothing, and when the pool was well formed and nothing is outstanding,
    no later [getShader] call hands out an instance that was in the free
    list, or that existed at all, before the [cleanUp]. *)
Theorem cleanUp_drains (st : State) (Hwf : wf st) :
  freeShaders (cleanUp st) = [] /\
  cleanUp (cleanUp st) = cleanUp st /\
  forall cs : list call,
    disciplined ∅ cs (cleanUp st) ->
    forall x, x ∈ fst (run cs (cleanUp st)) ->
      (x ∉ freeShaders st) /\ length (objects st) <= x.
Proof.
  split; [reflexivity |]. split; [reflexivity |].
  intros cs Hd x Hx.
  assert (Hge : length (objects st) <= x).
  { apply (run_lower_bound (length (objects st)) cs ∅ (cleanUp st)); try assumption.
    - cbn. intros z Hz. inversion Hz.
    - intros z Hz. apply elem_of_empty in Hz. destruct Hz.
    - reflexivity. }
  split; [| exact Hge].
  intros Hin. destruct Hwf as [_ Hall]. specialize (Hall x Hin). lia.
Qed.

(** C9.  The instance [getShader] returns carries, when it is returned,
    the [uColor] computed from the settings of this very call: the value
    an earlier transition left on it is gone. *)
Theorem getShader_configures (actor : Actor) (settings : Settings) (forOpening : bool)
    (st : State) (Hwf : wf st) :
  uColor_of (fst (getShader actor settings forOpening st))
            (snd (getShader actor settings forOpening st))
    = Some (configured_uColor settings).
Proof.
  destruct Hwf as [_ Hall].
  destruct (list_empty_or_last (freeShaders st)) as [E | (l & x & E)].
  - rewrite (getShader_miss _ _ _ _ E). cbn [fst snd].
    apply setUniforms_uColor. cbn. rewrite length_app. cbn. lia.
  - rewrite (getShader_hit _ _ _ _ _ _ E). cbn [fst snd].
    apply setUniforms_uColor. cbn. apply Hall. rewrite E.
    apply elem_of_app. right. apply list_elem_of_singleton. reflexivity.
Qed.

(** C10.  When [cleanUp] runs while the instance of an earlier
    [getShader] call is still outstanding, freeing that instance afterwards
    puts it alone on the new free list and the next [getShader] call
    returns it. *)
Theorem cleanUp_while_outstanding (actor : Actor) (settings : Settings)
    (forOpening : bool) (actor' : Actor) (settings' : Settings) (forOpening' : bool)
    (st : State) :
  let x := fst (getShader actor settings forOpening st) in
  let st1 := snd (getShader actor settings forOpening st) in
  let st2 := free x (cleanUp st1) in
  freeShaders st2 = [x] /\
  fst (getShader actor' settings' forOpening' st2) = x.
Proof.
  destruct (getShader actor settings forOpening st) as [x st1]. cbv zeta. cbn [fst snd].
  split; [reflexivity |].
  now rewrite (getShader_hit _ _ _ (free x (cleanUp st1)) [] x).
Qed.

End TVPoolFacts.

Section TVPoolWitnesses.
Import Host TVPool.

Local Abbreviation getShader :=
  (TVPool.getShader Samples.get_uniform_location Samples.from_string).
Local Abbreviation run :=
  (TVPool.run Samples.get_uniform_location Samples.from_string).

Lemma wf_initial : wf initial.
Proof. apply (inv_initial). Qed.

Lemma wf_used_pool : wf Samples.used_pool.
Proof.
  split.
  - apply NoDup_singleton.
  - intros x Hx. vm_compute in Hx. apply list_elem_of_singleton in Hx. subst x.
    vm_compute. lia.
Qed.

Lemma pool_round_trip_witness :
  wf Samples.used_pool /\
  fst (getShader Samples.actor Samples.settings true
         (snd (getShader Samples.actor Samples.settings false Samples.used_pool)))
  <> fst (getShader Samples.actor Samples.settings false Samples.used_pool).
Proof.
  split; [exact wf_used_pool |].
  apply (pool_round_trip Samples.get_uniform_location Samples.from_string
           Samples.actor Samples.settings false Samples.actor Samples.settings true
           Samples.used_pool).
  exact wf_used_pool.
Defined.

Lemma cleanUp_drains_witness :
  wf Samples.used_pool /\
  (1%nat ∉ freeShaders Samples.used_pool) /\
  length (objects Samples.used_pool) <= 1.
Proof.
  split; [exact wf_used_pool |].
  apply (cleanUp_drains Samples.get_uniform_location Samples.from_string
           Samples.used_pool wf_used_pool) with (cs := Samples.second_transition).
  - cbn. split; [| exact I]. apply elem_of_union. right.
    apply elem_of_singleton. reflexivity.
  - cbn. apply list_elem_of_here.
Defined.

Lemma getShader_configures_witness :
  wf Samples.used_pool /\
  uColor_of (fst (getShader Samples.actor Samples.settings false Samples.used_pool))
            (snd (getShader Samples.actor Samples.settings false Samples.used_pool))
    = Some [inject_Z 255 / 255; inject_Z 102 / 255; inject_Z 0 / 255]%Q.
Proof.
  split; [exact wf_used_pool |].
  apply (getShader_configures Samples.get_uniform_location Samples.from_string
           Samples.actor Samples.settings false Samples.used_pool wf_used_pool).
Defined.

End TVPoolWitnesses.

(* ===================================================================== *)
(** ** The uniforms of the Doom effect *)
(* ===================================================================== *)

Section DoomFacts.
Import Host Doom.
Local Open Scope Q_scope.

(** [Math.max] is the larger of its two arguments. *)
Lemma Math_max_is_max (x y : Q) : Math_max x y == Qmax x y.
Proof.
  unfold Math_max. destruct Qlt_le_dec as [Hlt | Hle].
  - symmetry. apply Q.max_r. lra.
  - symmetry. apply Q.max_l. exact Hle.
Qed.

Lemma set_float_same (uniform : Z) (n : nat) (value : list Q) (shader : Shader) :
  uniforms (set_float uniform n value shader) !! uniform = Some value.
Proof. unfold set_float, set_uniform_float. cbn. apply lookup_insert_eq. Qed.

Lemma set_float_other (uniform other : Z) (n : nat) (value : list Q) (shader : Shader) :
  uniform <> other ->
  uniforms (set_float uniform n value shader) !! other = uniforms shader !! other.
Proof. intros H. unfold set_float, set_uniform_float. cbn. now apply lookup_insert_ne. Qed.

(** What the handler leaves in [uActorScale] and [uVerticalScale]. *)
Lemma begin_animation_uniforms (stage_height : Q) (shader : Shader) (settings : Settings)
    (forOpening : bool) (actor : Actor) :
  distinct_locations shader ->
  let shader' := begin_animation stage_height shader settings forOpening actor in
  uniforms shader' !! _uActorScale shader
    = Some [if get_boolean settings "test-mode" then 1
            else 2 * Math_max 1 (stage_height / height actor)] /\
  uniforms shader' !! _uVerticalScale shader
    = Some [if get_boolean settings "test-mode" then 500
            else get_double settings "doom-vertical-scale"].
Proof.
  intros (H1 & H2 & H3 & H4). unfold begin_animation. cbv zeta. split.
  - rewrite set_float_other by (cbn; congruence).
    rewrite set_float_other by (cbn; congruence).
    rewrite set_float_other by (cbn; congruence).
    apply set_float_same.
  - rewrite set_float_other by (cbn; congruence).
    apply set_float_same.
Qed.

(** C6.  With the test mode off and an actor height [H] other than 0, the
    handler leaves [2 * max(1, S / H)] in [uActorScale] ([S] the stage
    height); with the test mode on it leaves 1 in [uActorScale] and 500 in
    [uVerticalScale], whatever the heights and the other settings. *)
Theorem begin_animation_actor_scale (stage_height : Q) (shader : Shader)
    (settings : Settings) (forOpening : bool) (actor : Actor)
    (Hloc : distinct_locations shader) :
  let shader' := begin_animation stage_height shader settings forOpening actor in
  (get_boolean settings "test-mode" = false ->
   ~ height actor == 0 ->
   exists v : Q,
     uniforms shader' !! _uActorScale shader = Some [v] /\
     v == 2 * Qmax 1 (stage_height / height actor)) /\
  (get_boolean settings "test-mode" = true ->
   uniforms shader' !! _uActorScale shader = Some [1] /\
   uniforms shader' !! _uVerticalScale shader = Some [500]).
Proof.
  intros shader'.
  destruct (begin_animation_uniforms stage_height shader settings forOpening actor Hloc)
    as [Ha Hv].
  fold shader' in Ha, Hv. split; intros Ht; rewrite Ht in *.
  - intros _. eexists. split; [exact Ha |]. now rewrite Math_max_is_max.
  - split; assumption.
Qed.

Lemma distinct_locations_doom_shader : distinct_locations Samples.doom_shader.
Proof. repeat split; discriminate. Qed.

Lemma begin_animation_actor_scale_witness :
  distinct_locations Samples.doom_shader /\
  ~ height Samples.actor == 0 /\
  (exists v : Q,
     uniforms (begin_animation 1080 Samples.doom_shader Samples.settings false Samples.actor)
       !! _uActorScale Samples.doom_shader = Some [v] /\
     v == 2 * Qmax 1 (1080 / height Samples.actor)) /\
  uniforms (begin_animation 1080 Samples.doom_shader Samples.test_settings false Samples.actor)
    !! _uActorScale Samples.doom_shader = Some [1] /\
  uniforms (begin_animation 1080 Samples.doom_shader Samples.test_settings false Samples.actor)
    !! _uVerticalScale Samples.doom_shader = Some [500].
Proof.
  split; [exact distinct_locations_doom_shader |].
  assert (Hh : ~ height Samples.actor == 0) by (cbn; lra).
  split; [exact Hh |]. split.
  - apply (begin_animation_actor_scale 1080 Samples.doom_shader Samples.settings false
             Samples.actor distinct_locations_doom_shader).
    + reflexivity.
    + exact Hh.
  - apply (begin_animation_actor_scale 1080 Samples.doom_shader Samples.test_settings false
             Samples.actor distinct_locations_doom_shader).
    reflexivity.
Defined.

(** On a 1080 pixel stage a 600 pixel window is scaled by 3.6. *)
Example begin_animation_sample :
  uniforms (begin_animation 1080 Samples.doom_shader Samples.settings false Samples.actor)
    !! 1%Z = Some [2 * (1080 / 600)].
Proof. reflexivity. Qed.

(** [getActorScale] asks the host for the same vertical scale. *)
Lemma getActorScale_matches (stage_height : Q) (settings : Settings)
    (forOpening : bool) (actor : Actor) :
  snd (getActorScale stage_height settings forOpening actor)
    == 2 * Qmax 1 (stage_height / height actor).
Proof. unfold getActorScale. cbn. now rewrite Math_max_is_max. Qed.

End DoomFacts.

(* ===================================================================== *)
(** ** More on the fragment code of the TV effect *)
(* ===================================================================== *)

Section TVShaderMore.
Import GLSL TVShader.
Local Open Scope Q_scope.

Ltac unfold_constants :=
  unfold BLUR_WIDTH, TB_TIME, LR_TIME, LR_DELAY, FF_TIME, Qdiv in *;
  cbn [Qinv Qnum Qden] in *.

(** The Hermite polynomial of [smoothstep] on the unit interval. *)
Lemma hermite_bounds (v : Q) : 0 <= v <= 1 -> 0 <= v * v * (3 - 2 * v) <= 1.
Proof.
  intros Hv.
  assert (H1 : 0 <= (v * v) * (3 - 2 * v)).
  { apply Qmult_le_0_compat; [apply Qmult_le_0_compat |]; lra. }
  assert (H2 : 0 <= ((1 - v) * (1 - v)) * (1 + 2 * v)).
  { apply Qmult_le_0_compat; [apply Qmult_le_0_compat |]; lra. }
  assert (E : 1 - v * v * (3 - 2 * v) == (1 - v) * (1 - v) * (1 + 2 * v)) by ring.
  lra.
Qed.


Lemma smoothstep_bounds (x : Q) : 0 <= smoothstep 0 1 x <= 1.
Proof.
  rewrite smoothstep_unit. apply hermite_bounds, clamp_bounds. lra.
Qed.


Lemma mult_le_nonneg (x x' y y' : Q) :
  0 <= x <= x' -> 0 <= y <= y' -> 0 <= x * y <= x' * y'.
Proof.
  intros Hx Hy.
  assert (H1 : 0 <= x * y) by (apply Qmult_le_0_compat; lra).
  assert (H2 : 0 <= (x' - x) * y') by (apply Qmult_le_0_compat; lra).
  assert (H3 : 0 <= x * (y' - y)) by (apply Qmult_le_0_compat; lra).
  assert (E : x' * y' - x * y == (x' - x) * y' + x * (y' - y)) by ring.
  lra.
Qed.



Lemma ffMask_bounds (p : Q) : 0 <= ffMask p <= 1.
Proof. unfold ffMask. pose proof (smoothstep_bounds (ffProgress p)). lra. Qed.

Lemma mask_bounds (p s t : Q) : 0 <= mask p s t <= 1.
Proof.
  unfold mask, tbMask, lrMask.
  pose proof (phaseMask_bounds (tbProgress p) (tb t)) as Ht.
  pose proof (phaseMask_bounds (lrProgress p) (lr s)) as Hl.
  pose proof (ffMask_bounds p) as Hf.
  pose proof (mult_le_nonneg _ 1 _ 1 (conj (proj1 Ht) (proj2 Ht)) Hl) as H1.
  pose proof (mult_le_nonneg _ (1 * 1) _ 1 H1 Hf) as H2.
  lra.
Qed.

(** The effect only ever removes opacity: whatever the uniforms, the
    coordinate and the texel, the alpha written lies between 0 and the
    alpha sampled. *)
Theorem fragment_alpha_bounds (uForOpening : bool) (uProgress : Q) (uColor : vec3)
    (uTexture : Q -> Q -> vec4) (s t : Q) (Ha : 0 <= a (uTexture s t)) :
  0 <= finalMask uForOpening uProgress s t <= 1 /\
  0 <= a (fragment uForOpening uProgress uColor uTexture s t) <= a (uTexture s t).
Proof.
  pose proof (mask_bounds (progress uForOpening uProgress) s t) as Hm.
  split; [exact Hm |].
  unfold fragment. cbv zeta. unfold applyMask, blend, unpremultiply.
  destruct Qlt_le_dec; cbn [a rgb];
    pose proof (mult_le_nonneg (a (uTexture s t)) (a (uTexture s t)) _ 1
                  (conj Ha (Qle_refl _)) Hm);
    lra.
Qed.

Lemma fragment_alpha_bounds_witness :
  0 <= finalMask false (1 # 2) (1 # 2) (1 # 3) <= 1 /\
  0 <= a (fragment false (1 # 2) Samples.white Samples.premultiplied (1 # 2) (1 # 3))
    <= a (Samples.premultiplied (1 # 2) (1 # 3)).
Proof.
  apply (fragment_alpha_bounds false (1 # 2) Samples.white Samples.premultiplied
           (1 # 2) (1 # 3)).
  cbn. lra.
Defined.



(** The folded gradient does not tell a coordinate from its mirror image. *)
Lemma gradient_mirror (c : Q) : gradient (1 - c) == gradient c.
Proof. unfold gradient. cbv zeta. repeat destruct Qlt_le_dec; lra. Qed.

(** The wipe is symmetric: a pixel and its mirror image about the centre
    of the window get the same mask at every moment. *)
Theorem mask_mirror (p s t : Q) :
  mask p (1 - s) t == mask p s t /\ mask p s (1 - t) == mask p s t.
Proof.
  unfold mask, tbMask, lrMask, tb, lr.
  split; now rewrite gradient_mirror.
Qed.

Lemma eased_before (p : Q) :
  (p <= 0 -> tbProgress p == 0) /\
  (p <= LR_DELAY -> lrProgress p == 0) /\
  (p <= 1 - FF_TIME -> ffMask p == 1).
Proof.
  unfold ffMask, tbProgress, lrProgress, ffProgress, tbLocal, lrLocal, ffLocal.
  repeat split; intros H.
  - apply smoothstep_low. rewrite clamp_below; [lra | lra | unfold_constants; lra].
  - apply smoothstep_low. rewrite clamp_below; [lra | lra | unfold_constants; lra].
  - rewrite (smoothstep_low (smoothstep 0 1 _)); [lra |].
    rewrite smoothstep_low; [lra |].
    rewrite clamp_below; [lra | lra | unfold_constants; lra].
Qed.

Lemma eased_after (p : Q) :
  (TB_TIME <= p -> tbProgress p == 1) /\
  (1 <= p -> lrProgress p == 1) /\
  (1 <= p -> ffMask p == 0).
Proof.
  unfold ffMask, tbProgress, lrProgress, ffProgress, tbLocal, lrLocal, ffLocal.
  repeat split; intros H.
  - apply smoothstep_high. rewrite clamp_above; [lra | lra | unfold_constants; lra].
  - apply smoothstep_high. rewrite clamp_above; [lra | lra | unfold_constants; lra].
  - rewrite (smoothstep_high (smoothstep 0 1 _)); [lra |].
    rewrite smoothstep_high; [lra |].
    rewrite clamp_above; [lra | lra | unfold_constants; lra].
Qed.

(** A progress outside [0, 1] acts like the nearest end: at or below 0
    every pixel of the window is kept, at or above 1 every pixel is gone. *)
Theorem mask_outside_progress (p s t : Q) :
  (p <= 0 -> 0 <= s <= 1 -> 0 <= t <= 1 -> mask p s t == 1) /\
  (1 <= p -> mask p s t == 0).
Proof.
  unfold mask. split.
  - intros Hp Hs Ht.
    destruct (eased_before p) as (Htb & Hlr & Hff).
    pose proof (gradient_bounds s Hs). pose proof (gradient_bounds t Ht).
    unfold tbMask, lrMask, tb, lr.
    rewrite (phaseMask_ahead (tbProgress p)) by (rewrite Htb; lra).
    rewrite (phaseMask_ahead (lrProgress p)) by (rewrite Hlr; unfold LR_DELAY; lra).
    rewrite Hff by (unfold FF_TIME; lra). lra.
  - intros Hp. destruct (eased_after p) as (_ & _ & Hff).
    rewrite (Hff Hp). lra.
Qed.

Lemma mask_outside_progress_witness :
  mask (-1 # 4) (1 # 2) (1 # 3) == 1 /\ mask (5 # 4) (1 # 2) (1 # 3) == 0.
Proof.
  split.
  - apply (mask_outside_progress (-1 # 4) (1 # 2) (1 # 3)); lra.
  - apply (mask_outside_progress (5 # 4) (1 # 2) (1 # 3)); lra.
Defined.

(** Up to [LR_DELAY] only the top/bottom wipe acts: inside the window the
    mask is [tbMask] alone. *)
Theorem mask_before_left_right (p s t : Q) (Hp : p <= LR_DELAY) (Hs : 0 <= s <= 1) :
  mask p s t == tbMask p t.
Proof.
  destruct (eased_before p) as (_ & Hlr & Hff).
  pose proof (gradient_bounds s Hs).
  unfold mask, lrMask, lr.
  rewrite (phaseMask_ahead (lrProgress p)) by (rewrite Hlr; lra).
  rewrite Hff by (unfold LR_DELAY, FF_TIME in *; lra). lra.
Qed.

Lemma mask_before_left_right_witness :
  mask (1 # 2) (1 # 4) (1 # 3) == tbMask (1 # 2) (1 # 3).
Proof.
  apply (mask_before_left_right (1 # 2) (1 # 4) (1 # 3)); unfold LR_DELAY; lra.
Defined.

(** From [TB_TIME] on the top/bottom wipe is complete: only the rows
    within 0.005 of the middle row can still be visible. *)
Theorem mask_after_top_bottom (p s t : Q) (Hp : TB_TIME <= p)
    (Ht : t <= 0.495 \/ 0.505 <= t) :
  mask p s t == 0.
Proof.
  destruct (eased_after p) as (Htb & _ & _).
  unfold mask, tbMask.
  rewrite (phaseMask_passed (tbProgress p) (tb t)); [lra |].
  rewrite (Htb Hp). unfold tb, gradient, BLUR_WIDTH. cbv zeta.
  destruct Qlt_le_dec; lra.
Qed.

Lemma mask_after_top_bottom_witness : mask (4 # 5) (1 # 4) (1 # 3) == 0.
Proof.
  apply (mask_after_top_bottom (4 # 5) (1 # 4) (1 # 3)).
  - unfold TB_TIME. lra.
  - left. lra.
Defined.

(** The middle row stays untouched by the top/bottom wipe to the end. *)
Lemma tbMask_middle_row (p : Q) : tbMask p (1 # 2) == 1.
Proof.
  unfold tbMask. apply phaseMask_ahead.
  pose proof (smoothstep_bounds (tbLocal p)) as H. unfold tbProgress.
  assert (E : tb (1 # 2) == 1) by reflexivity. lra.
Qed.



Lemma mix_ends (x y : Q) : mix x y 0 == x /\ mix x y 1 == y.
Proof. unfold mix. split; ring. Qed.

(** The tint sets in with the progress: at progress 0 (or below) the
    colour written is the straight-alpha colour of the texel, at progress
    1 (or above) it is the effect colour scaled by the texel's alpha. *)
Theorem fragment_colour_ends (uForOpening : bool) (uProgress : Q) (uColor : vec3)
    (uTexture : Q -> Q -> vec4) (s t : Q) :
  let out := fragment uForOpening uProgress uColor uTexture s t in
  (progress uForOpening uProgress <= 0 ->
   vec3_eq (rgb out) (rgb (unpremultiply (uTexture s t)))) /\
  (1 <= progress uForOpening uProgress ->
   vec3_eq (rgb out) (vec3_scale uColor (a (uTexture s t)))).
Proof.
  cbv zeta. unfold fragment. cbv zeta.
  assert (Ea : a (unpremultiply (uTexture s t)) = a (uTexture s t)).
  { unfold unpremultiply. destruct Qlt_le_dec; reflexivity. }
  unfold applyMask, blend, vec3_mix, vec3_eq. cbn [rgb a vx vy vz]. rewrite Ea.
  split; intros H.
  - rewrite (smoothstep_low _ H). repeat split; apply mix_ends.
  - rewrite (smoothstep_high _ H). repeat split; apply mix_ends.
Qed.

Lemma fragment_colour_ends_witness :
  vec3_eq (rgb (fragment false 0 Samples.white Samples.premultiplied (1 # 2) (1 # 3)))
          (rgb (unpremultiply (Samples.premultiplied (1 # 2) (1 # 3)))) /\
  vec3_eq (rgb (fragment true 0 Samples.white Samples.premultiplied (1 # 2) (1 # 3)))
          (vec3_scale Samples.white (a (Samples.premultiplied (1 # 2) (1 # 3)))).
Proof.
  split.
  - apply (fragment_colour_ends false 0 Samples.white Samples.premultiplied
             (1 # 2) (1 # 3)).
    cbn. lra.
  - apply (fragment_colour_ends true 0 Samples.white Samples.premultiplied
             (1 # 2) (1 # 3)).
    cbn. lra.
Defined.



End TVShaderMore.

(* ===================================================================== *)
(** ** More on the shader pool *)
(* ===================================================================== *)

Section TVPoolMore.
Import Host TVPool PoolStats.

Variable get_uniform_location : string -> Z.
Variable from_string : string -> bool * Color.

Local Abbreviation getShader := (TVPool.getShader get_uniform_location from_string).
Local Abbreviation setUniforms := (TVPool.setUniforms from_string).
Local Abbreviation run := (TVPool.run get_uniform_location from_string).
Local Abbreviation disciplined := (TVPool.disciplined get_uniform_location from_string).
Local Abbreviation outstanding_after :=
  (PoolStats.outstanding_after get_uniform_location from_string).
Local Abbreviation hit := (getShader_hit get_uniform_location from_string).
Local Abbreviation miss := (getShader_miss get_uniform_location from_string).

(** Two pops in a row take the last two entries, last first. *)
Lemma getShader_twice actor settings forOpening actor' settings' forOpening' st l x y :
  freeShaders st = l ++ [x; y] ->
  fst (getShader actor settings forOpening st) = y /\
  fst (getShader actor' settings' forOpening'
         (snd (getShader actor settings forOpening st))) = x.
Proof.
  intros E.
  rewrite (hit actor settings forOpening st (l ++ [x]) y)
    by (rewrite E, <- app_assoc; reflexivity).
  cbn [fst snd]. split; [reflexivity |].
  now rewrite (hit actor' settings' forOpening' _ l x)
    by (rewrite setUniforms_freeShaders; reflexivity).
Qed.

(** The free list is a stack: of two instances freed one after the other
    the one freed last is handed out first, from any pool state. *)
Theorem pool_is_last_in_first_out (actor : Actor) (settings : Settings)
    (forOpening : bool) (actor' : Actor) (settings' : Settings) (forOpening' : bool)
    (x y : nat) (st : State) :
  let st2 := free y (free x st) in
  fst (getShader actor settings forOpening st2) = y /\
  fst (getShader actor' settings' forOpening'
         (snd (getShader actor settings forOpening st2))) = x.
Proof.
  cbv zeta. apply (getShader_twice _ _ _ _ _ _ _ (freeShaders st)).
  cbn. now rewrite <- app_assoc.
Qed.

(** [free] does not look whether the instance is in the free list
    already: an instance freed twice makes the pool ill formed and is then
    handed out to two transitions in a row. *)
Theorem double_free_hands_out_twice (actor : Actor) (settings : Settings)
    (forOpening : bool) (actor' : Actor) (settings' : Settings) (forOpening' : bool)
    (x : nat) (st : State) :
  let st2 := free x (free x st) in
  ~ wf st2 /\
  fst (getShader actor settings forOpening st2) = x /\
  fst (getShader actor' settings' forOpening'
         (snd (getShader actor settings forOpening st2))) = x.
Proof.
  cbv zeta. split.
  - intros [Hnd _]. cbn in Hnd.
    apply NoDup_app in Hnd as (_ & Hdisj & _).
    apply (Hdisj x).
    + apply elem_of_app. right. apply list_elem_of_singleton. reflexivity.
    + apply list_elem_of_singleton. reflexivity.
  - apply (getShader_twice _ _ _ _ _ _ _ (freeShaders st)).
    cbn. now rewrite <- app_assoc.
Qed.

Lemma getShader_pair actor settings forOpening st :
  getShader actor settings forOpening st
    = (fst (getShader actor settings forOpening st),
       snd (getShader actor settings forOpening st)).
Proof. destruct (getShader actor settings forOpening st). reflexivity. Qed.

(** [getShader] constructs a shader only when the free list is empty;
    otherwise it takes the last entry off the list and creates nothing. *)
Theorem getShader_reuses_before_creating (actor : Actor) (settings : Settings)
    (forOpening : bool) (st : State) :
  let x := fst (getShader actor settings forOpening st) in
  let st' := snd (getShader actor settings forOpening st) in
  (freeShaders st = [] ->
   x = length (objects st) /\ length (objects st') = S (length (objects st)) /\
   freeShaders st' = []) /\
  (freeShaders st <> [] ->
   freeShaders st = freeShaders st' ++ [x] /\
   length (objects st') = length (objects st)).
Proof.
  cbv zeta.
  pose proof (getShader_pair actor settings forOpening st) as G.
  destruct (getShader_objects _ _ _ _ _ _ _ _ G) as (_ & Hnew & Hsame).
  destruct (getShader_freeShaders _ _ _ _ _ _ _ _ G) as [E | (E & E' & Ex)].
  - split; intros H.
    + rewrite H in E. destruct (freeShaders (snd _)); discriminate.
    + auto.
  - split; intros H; [auto | contradiction].
Qed.

(** [getShader] writes to the instance it returns and to no other: the
    [uColor] of every other instance is what it was. *)
Theorem getShader_leaves_others (actor : Actor) (settings : Settings)
    (forOpening : bool) (st : State) (y : nat)
    (Hy : y <> fst (getShader actor settings forOpening st)) :
  uColor_of y (snd (getShader actor settings forOpening st)) = uColor_of y st.
Proof.
  assert (Hset : forall x st1, y <> x ->
            uColor_of y (setUniforms x actor settings forOpening st1) = uColor_of y st1).
  { intros x st1 Hne. unfold TVPool.setUniforms, uColor_of.
    destruct (objects st1 !! x); [| reflexivity].
    cbn. now rewrite list_lookup_insert_ne by congruence. }
  destruct (list_empty_or_last (freeShaders st)) as [E | (l & x & E)].
  - rewrite (miss _ _ _ _ E) in *. cbn [fst snd] in *.
    rewrite Hset by exact Hy. unfold uColor_of. cbn.
    destruct (decide (y < length (objects st))) as [Hlt | Hge].
    + now rewrite lookup_app_l.
    + rewrite (proj2 (lookup_ge_None (objects st) y)) by lia.
      rewrite (proj2 (lookup_ge_None _ y)); [reflexivity |].
      rewrite length_app. cbn. lia.
  - rewrite (hit _ _ _ _ _ _ E) in *. cbn [fst snd] in *.
    now rewrite Hset by exact Hy.
Qed.

(** An instance handed out is not among the outstanding ones. *)
Lemma getShader_not_outstanding out actor settings forOpening st :
  inv out st -> fst (getShader actor settings forOpening st) ∉ out.
Proof.
  intros ((_ & Hall) & Hdisj & Hout).
  pose proof (getShader_pair actor settings forOpening st) as G.
  destruct (getShader_freeShaders _ _ _ _ _ _ _ _ G) as [E | (_ & _ & Ex)].
  - apply Hdisj. rewrite E. apply elem_of_app. right.
    apply list_elem_of_singleton. reflexivity.
  - rewrite Ex. intros Hin. specialize (Hout _ Hin). lia.
Qed.

Lemma inv_run (cs : list call) : forall out st,
  inv out st -> disciplined out cs st ->
  inv (outstanding_after out cs st) (snd (run cs st)).
Proof.
  induction cs as [| [actor settings forOpening | x |] cs IH]; intros out st Hinv Hd; cbn in *.
  - exact Hinv.
  - destruct (TVPool.getShader _ _ actor settings forOpening st) as [x st1] eqn:G.
    specialize (IH _ _ (inv_getShader _ _ _ _ _ _ _ _ _ Hinv G) Hd).
    destruct (TVPool.run _ _ cs st1). exact IH.
  - destruct Hd as [Hx Hd]. exact (IH _ _ (inv_free _ _ _ Hinv Hx) Hd).
  - exact (IH _ _ (inv_cleanUp _ _ Hinv) Hd).
Qed.

(** Whatever the extension did before, as long as it freed only
    instances it held: the free list has no duplicates, lists only existing
    objects and none that is outstanding, and the next [getShader] hands
    out an instance no running transition holds. *)
Theorem pool_never_shares_an_instance (cs : list call) (actor : Actor)
    (settings : Settings) (forOpening : bool) (Hd : disciplined ∅ cs initial) :
  inv (outstanding_after ∅ cs initial) (snd (run cs initial)) /\
  fst (getShader actor settings forOpening (snd (run cs initial)))
    ∉ outstanding_after ∅ cs initial.
Proof.
  pose proof (inv_run cs ∅ initial inv_initial Hd) as Hinv.
  split; [exact Hinv |]. now apply getShader_not_outstanding.
Qed.

Lemma peak_outstanding_ge (cur : nat) (cs : list call) : cur <= peak_outstanding cur cs.
Proof. destruct cs as [| [? ? ? | ? |] cs]; cbn; lia. Qed.

(** Without [cleanUp] every shader ever constructed is either in the
    free list or outstanding, and their number is the larger of the number
    at the start and the peak of simultaneously outstanding instances. *)
Lemma objects_after_run (cs : list call) : forall out st,
  inv out st ->
  length (objects st) = size out + length (freeShaders st) ->
  no_cleanUp cs = true ->
  disciplined out cs st ->
  length (objects (snd (run cs st)))
    = Nat.max (length (objects st)) (peak_outstanding (size out) cs).
Proof.
  induction cs as [| [actor settings forOpening | y |] cs IH];
    intros out st Hinv Hacc Hnc Hd; cbn in *.
  - lia.
  - destruct (TVPool.getShader _ _ actor settings forOpening st) as [x st1] eqn:G.
    pose proof (getShader_not_outstanding out actor settings forOpening st Hinv) as Hx.
    rewrite G in Hx. cbn in Hx.
    assert (Hsize : size (out ∪ {[x]}) = S (size out)).
    { rewrite size_union by (apply disjoint_singleton_r; exact Hx).
      rewrite size_singleton. lia. }
    destruct (getShader_objects _ _ _ _ _ _ _ _ G) as (_ & Hnew & Hsame).
    pose proof (peak_outstanding_ge (S (size out)) cs) as Hpk.
    assert (Hacc1 : length (objects st1) = size (out ∪ {[x]}) + length (freeShaders st1)
                    /\ (length (objects st1) = length (objects st) \/
                        (length (objects st1) = S (size out) /\
                         length (objects st) = size out))).
    { rewrite Hsize.
      destruct (getShader_freeShaders _ _ _ _ _ _ _ _ G) as [E | (E & E' & _)].
      - assert (Hne : freeShaders st <> []).
        { rewrite E. destruct (freeShaders st1); discriminate. }
        rewrite (Hsame Hne). rewrite E, length_app in Hacc. cbn in Hacc. lia.
      - rewrite (Hnew E), E'. rewrite E in Hacc. cbn in *. lia. }
    destruct Hacc1 as [Hacc1 Hcase].
    specialize (IH _ _ (inv_getShader _ _ _ _ _ _ _ _ _ Hinv G) Hacc1 Hnc Hd).
    destruct (TVPool.run _ _ cs st1) as [xs st2]. cbn in *.
    rewrite IH, Hsize. lia.
  - destruct Hd as [Hy Hd].
    assert (Hsize : size (out ∖ {[y]}) = pred (size out) /\ 1 <= size out).
    { assert (Hsub : ({[y]} : gset nat) ⊆ out) by (apply singleton_subseteq_l; exact Hy).
      rewrite (size_difference _ _ Hsub), size_singleton.
      apply subseteq_size in Hsub. rewrite size_singleton in Hsub. lia. }
    destruct Hsize as [Hsize Hpos].
    assert (Hacc1 : length (objects (free y st))
                    = size (out ∖ {[y]}) + length (freeShaders (free y st))).
    { cbn. rewrite length_app, Hsize. cbn. lia. }
    specialize (IH _ _ (inv_free _ _ _ Hinv Hy) Hacc1 Hnc Hd).
    rewrite IH, Hsize. cbn. lia.
  - discriminate Hnc.
Qed.

(** The pool constructs exactly as many shaders as there were
    transitions running at the same time at the busiest moment, as long as
    [cleanUp] is not called and only held instances are freed. *)
Theorem pool_size_is_peak_in_use (cs : list call) (Hd : disciplined ∅ cs initial)
    (Hnc : no_cleanUp cs = true) :
  length (objects (snd (run cs initial))) = peak_outstanding 0 cs.
Proof.
  rewrite (objects_after_run cs ∅ initial inv_initial) by (rewrite ?size_empty; auto).
  rewrite size_empty. cbn. reflexivity.
Qed.

End TVPoolMore.

Section TVPoolMoreWitnesses.
Import Host TVPool PoolStats.

Lemma getShader_reuses_before_creating_witness :
  fst (TVPool.getShader Samples.get_uniform_location Samples.from_string
         Samples.actor Samples.settings false initial) = 0 /\
  length (objects (snd (TVPool.getShader Samples.get_uniform_location
                          Samples.from_string Samples.actor Samples.settings false
                          initial))) = 1 /\
  freeShaders (snd (TVPool.getShader Samples.get_uniform_location
                      Samples.from_string Samples.actor Samples.settings false
                      initial)) = [].
Proof.
  apply (getShader_reuses_before_creating Samples.get_uniform_location
           Samples.from_string Samples.actor Samples.settings false initial).
  reflexivity.
Defined.

Lemma getShader_leaves_others_witness :
  uColor_of 0
    (snd (TVPool.getShader Samples.get_uniform_location Samples.from_string
            Samples.actor Samples.test_settings true
            (TVPool.cleanUp Samples.used_pool)))
  = uColor_of 0 (TVPool.cleanUp Samples.used_pool).
Proof.
  apply (getShader_leaves_others Samples.get_uniform_location
           Samples.from_string Samples.actor Samples.test_settings true
           (TVPool.cleanUp Samples.used_pool) 0).
  vm_compute. lia.
Defined.

Lemma disciplined_overlapping :
  TVPool.disciplined Samples.get_uniform_location Samples.from_string
    ∅ Samples.overlapping initial.
Proof.
  cbn. split.
  - apply elem_of_union. left. apply elem_of_union. right.
    apply elem_of_singleton. reflexivity.
  - split; [| exact I].
    apply elem_of_union. left. apply elem_of_difference. split.
    + apply elem_of_union. right. apply elem_of_singleton. reflexivity.
    + intros H. apply elem_of_singleton in H. discriminate H.
Qed.

Lemma pool_never_shares_an_instance_witness :
  inv (PoolStats.outstanding_after Samples.get_uniform_location Samples.from_string
         ∅ Samples.overlapping initial)
      (snd (TVPool.run Samples.get_uniform_location Samples.from_string
              Samples.overlapping initial)) /\
  fst (TVPool.getShader Samples.get_uniform_location Samples.from_string
         Samples.actor Samples.settings false
         (snd (TVPool.run Samples.get_uniform_location Samples.from_string
                 Samples.overlapping initial)))
    ∉ PoolStats.outstanding_after Samples.get_uniform_location Samples.from_string
        ∅ Samples.overlapping initial.
Proof.
  apply (pool_never_shares_an_instance Samples.get_uniform_location
           Samples.from_string Samples.overlapping Samples.actor Samples.settings
           false).
  exact disciplined_overlapping.
Defined.

Lemma pool_size_is_peak_in_use_witness :
  length (objects (snd (TVPool.run Samples.get_uniform_location Samples.from_string
                          Samples.overlapping initial)))
    = peak_outstanding 0 Samples.overlapping.
Proof.
  apply (pool_size_is_peak_in_use Samples.get_uniform_location Samples.from_string
           Samples.overlapping).
  - exact disciplined_overlapping.
  - reflexivity.
Defined.

(** Three transitions, two of them at the same time: two shaders. *)
Example overlapping_needs_two_shaders :
  fst (TVPool.run Samples.get_uniform_location Samples.from_string
         Samples.overlapping initial) = [0; 1; 0] /\
  peak_outstanding 0 Samples.overlapping = 2.
Proof. split; reflexivity. Qed.

End TVPoolMoreWitnesses.

(* ===================================================================== *)
(** ** Settings, preferences and the transition tweak *)
(* ===================================================================== *)

Section EffectsFacts.
Import Host Effects.

Variable get_uniform_location : string -> Z.
Variable from_string : string -> bool * Color.

(** The shader of the TV effect depends on the settings only through
    keys that its preferences page binds to a widget, and neither on the
    actor nor on the direction: with the same values under those keys
    [getShader] returns the same instance in the same state. *)
Theorem TV_getShader_reads_bound_settings (gtk : string) (actor1 actor2 : Actor)
    (settings1 settings2 : Settings) (forOpening1 forOpening2 : bool)
    (st : TVPool.State)
    (H : agree_on (bound_keys (TV_getPreferences gtk)) settings1 settings2) :
  TVPool.getShader get_uniform_location from_string actor1 settings1 forOpening1 st
    = TVPool.getShader get_uniform_location from_string actor2 settings2 forOpening2 st.
Proof.
  assert (E : get_string settings1 "tv-effect-color"
              = get_string settings2 "tv-effect-color").
  { apply H. cbn. apply list_elem_of_further, list_elem_of_here. }
  unfold TVPool.getShader, TVPool.setUniforms. now rewrite E.
Qed.

(** [tweakTransition] looks neither at the actor nor at the settings; the
    curves for opening are the curves for closing played backwards, and
    only [scale-y] moves at all. *)
Theorem tweakTransition_reverses (actor actor' : Actor) (settings settings' : Settings) :
  tweakTransition actor settings true
    = map (fun kc => (fst kc, reversed (snd kc))) (tweakTransition actor' settings' false) /\
  forall (forOpening : bool) (key : string) (c : Curve),
    (key, c) ∈ tweakTransition actor settings forOpening ->
    mode c = 3%Z /\ (key <> "scale-y" -> from c = to c).
Proof.
  split; [reflexivity |].
  intros forOpening key c Hin. unfold tweakTransition in Hin.
  repeat (apply elem_of_cons in Hin as [[= -> ->] | Hin]);
    [split; [reflexivity | intros _; reflexivity] ..
    | split; [reflexivity | intros Hk; now contradiction Hk]
    | inversion Hin].
Qed.

End EffectsFacts.

Section EffectsWitnesses.
Import Host Effects.

Lemma agree_on_samples :
  agree_on (bound_keys (TV_getPreferences "gtk4")) Samples.settings Samples.test_settings.
Proof. intros key _. repeat split. Qed.

Lemma TV_getShader_reads_bound_settings_witness :
  TVPool.getShader Samples.get_uniform_location Samples.from_string
    Samples.actor Samples.settings false Samples.used_pool
  = TVPool.getShader Samples.get_uniform_location Samples.from_string
      Samples.actor Samples.test_settings true Samples.used_pool.
Proof.
  apply (TV_getShader_reads_bound_settings Samples.get_uniform_location
           Samples.from_string "gtk4" Samples.actor Samples.actor
           Samples.settings Samples.test_settings false true Samples.used_pool).
  exact agree_on_samples.
Defined.

Lemma tweakTransition_reverses_witness :
  mode {| from := 255; to := 255; mode := 3 |} = 3%Z /\
  ("opacity" <> "scale-y" ->
   from {| from := 255; to := 255; mode := 3 |}
   = to {| from := 255; to := 255; mode := 3 |}).
Proof.
  apply (tweakTransition_reverses Samples.actor Samples.actor Samples.settings
           Samples.settings) with (forOpening := true) (key := "opacity").
  apply list_elem_of_here.
Defined.

End EffectsWitnesses.

(* ===================================================================== *)
(** ** More on the uniforms of the Doom effect *)
(* ===================================================================== *)

Section DoomMore.
Import Host Effects Doom.
Local Open Scope Q_scope.

(** The handler as four writes into the uniform store, in source order. *)
Lemma begin_animation_writes (stage_height : Q) (shader : Shader) (settings : Settings)
    (forOpening : bool) (actor : Actor) :
  begin_animation stage_height shader settings forOpening actor
  = with_uniforms shader
      (<[_uPixelSize shader := [inject_Z (get_int settings "doom-pixel-size")]]>
      (<[_uVerticalScale shader :=
           [if get_boolean settings "test-mode" then 500
            else get_double settings "doom-vertical-scale"]]>
      (<[_uHorizontalScale shader := [get_double settings "doom-horizontal-scale"]]>
      (<[_uActorScale shader :=
           [if get_boolean settings "test-mode" then 1
            else 2 * Math_max 1 (stage_height / height actor)]]>
         (uniforms shader))))).
Proof. reflexivity. Qed.



(** The handler keeps the four stored locations and writes to these four
    uniforms only: any other uniform of the shader keeps its value. *)
Theorem begin_animation_leaves_others (stage_height : Q) (shader : Shader)
    (settings : Settings) (forOpening : bool) (actor : Actor) (other : Z)
    (Hother : other <> _uActorScale shader /\ other <> _uHorizontalScale shader /\
              other <> _uVerticalScale shader /\ other <> _uPixelSize shader) :
  let shader' := begin_animation stage_height shader settings forOpening actor in
  uniforms shader' !! other = uniforms shader !! other /\
  _uActorScale shader' = _uActorScale shader /\
  _uHorizontalScale shader' = _uHorizontalScale shader /\
  _uVerticalScale shader' = _uVerticalScale shader /\
  _uPixelSize shader' = _uPixelSize shader.
Proof.
  destruct Hother as (H1 & H2 & H3 & H4).
  cbv zeta. rewrite begin_animation_writes. cbn.
  split; [| repeat split].
  now rewrite !lookup_insert_ne by congruence.
Qed.

Lemma begin_animation_leaves_others_witness :
  uniforms (begin_animation 1080 Samples.doom_shader Samples.settings false Samples.actor)
    !! 0%Z = uniforms Samples.doom_shader !! 0%Z.
Proof.
  apply (begin_animation_leaves_others 1080 Samples.doom_shader Samples.settings false
           Samples.actor 0).
  repeat split; discriminate.
Defined.

(** Running the handler twice with the same arguments is the same as
    running it once. *)
Theorem begin_animation_idempotent (stage_height : Q) (shader : Shader)
    (settings : Settings) (forOpening : bool) (actor : Actor) :
  begin_animation stage_height
    (begin_animation stage_height shader settings forOpening actor)
    settings forOpening actor
  = begin_animation stage_height shader settings forOpening actor.
Proof.
  rewrite !begin_animation_writes. unfold with_uniforms. cbn. f_equal.
  apply map_eq. intros i.
  rewrite !lookup_insert. repeat case_decide; reflexivity.
Qed.

(** The handler overwrites what an earlier animation left: the values of
    the four uniforms after it do not depend on the values the shader held
    before. *)
Theorem begin_animation_overwrites (stage_height : Q) (shader : Shader)
    (before : gmap Z (list Q)) (settings : Settings) (forOpening : bool)
    (actor : Actor) (uniform : Z)
    (Hu : uniform ∈ [ _uActorScale shader; _uHorizontalScale shader;
                     _uVerticalScale shader; _uPixelSize shader ]) :
  uniforms (begin_animation stage_height (with_uniforms shader before)
              settings forOpening actor) !! uniform
  = uniforms (begin_animation stage_height shader settings forOpening actor) !! uniform.
Proof.
  rewrite !begin_animation_writes. unfold with_uniforms. cbn.
  rewrite !lookup_insert.
  repeat case_decide; try reflexivity.
  repeat (apply elem_of_cons in Hu as [-> | Hu]); try congruence.
  inversion Hu.
Qed.

Lemma begin_animation_overwrites_witness :
  uniforms (begin_animation 1080
              (with_uniforms Samples.doom_shader {[ 3%Z := [7] ]})
              Samples.settings false Samples.actor) !! 3%Z
  = uniforms (begin_animation 1080 Samples.doom_shader Samples.settings false
                Samples.actor) !! 3%Z.
Proof.
  apply (begin_animation_overwrites 1080 Samples.doom_shader {[ 3%Z := [7] ]}
           Samples.settings false Samples.actor 3).
  apply list_elem_of_further, list_elem_of_further, list_elem_of_here.
Defined.

(** For an actor height other than 0: outside the test mode the shader
    is told the very scale that [getActorScale] asks the host to apply to
    the actor; in the test mode it is told 1 although the actor is still
    scaled by at least 2. *)
Theorem uActorScale_matches_getActorScale (stage_height : Q) (shader : Shader)
    (settings : Settings) (forOpening forOpening' : bool) (actor : Actor)
    (Hloc : distinct_locations shader) (Hh : ~ height actor == 0) :
  let shader' := begin_animation stage_height shader settings forOpening actor in
  let scale := snd (getActorScale stage_height settings forOpening' actor) in
  (get_boolean settings "test-mode" = false ->
   uniforms shader' !! _uActorScale shader = Some [scale]) /\
  (get_boolean settings "test-mode" = true ->
   uniforms shader' !! _uActorScale shader = Some [1] /\ 2 <= scale).
Proof.
  cbv zeta.
  destruct (begin_animation_uniforms stage_height shader settings forOpening actor Hloc)
    as [Ha _].
  cbv zeta in Ha. rewrite Ha.
  split; intros Ht; rewrite Ht; [reflexivity |].
  split; [reflexivity |].
  unfold getActorScale, Math_max. cbn [snd]. destruct Qlt_le_dec; lra.
Qed.

Lemma uActorScale_matches_getActorScale_witness :
  ~ height Samples.actor == 0 /\
  uniforms (begin_animation 1080 Samples.doom_shader Samples.settings false Samples.actor)
    !! _uActorScale Samples.doom_shader
  = Some [snd (getActorScale 1080 Samples.settings true Samples.actor)].
Proof.
  assert (Hh : ~ height Samples.actor == 0) by (cbn; lra).
  split; [exact Hh |].
  apply (uActorScale_matches_getActorScale 1080 Samples.doom_shader Samples.settings
           false true Samples.actor distinct_locations_doom_shader Hh).
  reflexivity.
Defined.

(** The test mode overrides two uniforms only: [uPixelSize] always holds
    the pixel size of the settings, and so does [uHorizontalScale] the
    horizontal scale when its location is not shared with a later write. *)
Theorem begin_animation_settings_uniforms (stage_height : Q) (shader : Shader)
    (settings : Settings) (forOpening : bool) (actor : Actor) :
  let shader' := begin_animation stage_height shader settings forOpening actor in
  uniforms shader' !! _uPixelSize shader
    = Some [inject_Z (get_int settings "doom-pixel-size")] /\
  (_uHorizontalScale shader <> _uVerticalScale shader ->
   _uHorizontalScale shader <> _uPixelSize shader ->
   uniforms shader' !! _uHorizontalScale shader
     = Some [get_double settings "doom-horizontal-scale"]).
Proof.
  cbv zeta. rewrite begin_animation_writes. cbn. split.
  - apply lookup_insert_eq.
  - intros H1 H2. rewrite !lookup_insert_ne by congruence. apply lookup_insert_eq.
Qed.

Lemma begin_animation_settings_uniforms_witness :
  uniforms (begin_animation 1080 Samples.doom_shader Samples.test_settings false
              Samples.actor) !! _uHorizontalScale Samples.doom_shader
  = Some [get_double Samples.test_settings "doom-horizontal-scale"].
Proof.
  apply (begin_animation_settings_uniforms 1080 Samples.doom_shader
           Samples.test_settings false Samples.actor); discriminate.
Defined.

(** The handler depends on the settings only through the test-mode flag
    and keys that the preferences page of the effect binds, and not on the
    direction of the transition. *)
Theorem Doom_reads_bound_settings (gtk : string) (stage_height : Q) (shader : Shader)
    (settings1 settings2 : Settings) (forOpening1 forOpening2 : bool) (actor : Actor)
    (Ht : get_boolean settings1 "test-mode" = get_boolean settings2 "test-mode")
    (H : agree_on (bound_keys (Doom_getPreferences gtk)) settings1 settings2) :
  begin_animation stage_height shader settings1 forOpening1 actor
  = begin_animation stage_height shader settings2 forOpening2 actor.
Proof.
  assert (Hh : get_double settings1 "doom-horizontal-scale"
               = get_double settings2 "doom-horizontal-scale").
  { apply H. cbn. apply list_elem_of_further, list_elem_of_here. }
  assert (Hv : get_double settings1 "doom-vertical-scale"
               = get_double settings2 "doom-vertical-scale").
  { apply H. cbn. do 2 apply list_elem_of_further. apply list_elem_of_here. }
  assert (Hp : get_int settings1 "doom-pixel-size" = get_int settings2 "doom-pixel-size").
  { apply H. cbn. do 3 apply list_elem_of_further. apply list_elem_of_here. }
  rewrite !begin_animation_writes. now rewrite Ht, Hh, Hv, Hp.
Qed.

End DoomMore.

Section DoomMoreWitnesses.
Import Host Effects Doom.

Lemma agree_on_doom_samples :
  agree_on (bound_keys (Doom_getPreferences "gtk4")) Samples.settings
    Samples.settings_elsewhere.
Proof.
  intros key Hin. cbn in Hin.
  repeat (apply elem_of_cons in Hin as [-> | Hin]); [repeat split .. | inversion Hin].
Qed.

Lemma Doom_reads_bound_settings_witness :
  begin_animation 1080 Samples.doom_shader Samples.settings false Samples.actor
  = begin_animation 1080 Samples.doom_shader Samples.settings_elsewhere true Samples.actor.
Proof.
  apply (Doom_reads_bound_settings "gtk4" 1080 Samples.doom_shader Samples.settings
           Samples.settings_elsewhere false true Samples.actor).
  - reflexivity.
  - exact agree_on_doom_samples.
Defined.

End DoomMoreWitnesses.
